(** * node-sentinels: circuit breakers, breaker policy and exponential backoff

    A shallow embedding of the TypeScript sources of [@mfdlabs/sentinels]
    and the properties of its breaker state machine.

    Conventions of the embedding.

    - A JavaScript [Date] is its time value: an integral number of
      milliseconds since the epoch, or no number for an Invalid Date.  The
      clock always gives a valid one, held in [Z].  The retry interval of an
      execution breaker is any double; [new Date] clips the sum that the
      code makes of it.  The error interval of the windowed breaker and the
      retry interval of a policy are integral milliseconds.
    - The host environment is a [World]: the wall clock read by [new Date()]
      and [Date.now()], and a log of the effects performed by code supplied
      by the caller (wrapped actions, observer callbacks).  The library code
      itself takes no time: the clock only moves while caller code runs.
    - A method that may throw returns a [completion]; the object it mutates
      is passed in and returned, so a mutation made before a [throw]
      persists, as it does in JavaScript.
    - A class field declared without an initialiser holds [undefined] until
      it is first assigned, hence the [option] type of such fields.
    - Code of the caller that a breaker runs on the way to rethrowing an
      error, namely the failure detector and the retry interval calculator,
      may throw, and so may a wrapped action (which may also reach its
      breaker), the [onTerminatingRequest] hook of a policy and a health
      check.  The threshold and interval getters of the windowed breaker,
      the trip reason authority and the [onRequestToOpen] hook are taken to
      return: the policy is modelled for notifications that complete.
    - The delay calculator works on IEEE doubles, as JavaScript does;
      [Math.pow] and [Math.random] are parameters of the host. *)

From Stdlib Require Import ZArith Bool String List Lia.
From Stdlib Require Import DecimalString.
From Stdlib Require Import Floats.
Import ListNotations.

Local Open Scope string_scope.
Local Open Scope Z_scope.

(** ** The fragment of JavaScript the sources rely on *)

Module Js.

(** Values that the code throws, catches or receives as [error]. *)
Inductive value : Type :=
| VUndefined
| VNull
| VError (message : string)                 (* new Error(message) *)
| VCircuitBreakerError (message : string)   (* new CircuitBreakerError(message) *)
| VOther (tag : string).                    (* anything else the caller throws *)

(** Outcome of running a statement list: normal completion or a throw. *)
Inductive completion (A : Type) : Type :=
| Normal (a : A)
| Throw (v : value).
Arguments Normal {A} a.
Arguments Throw {A} v.

(** [e instanceof CircuitBreakerError] *)
Definition instanceof_CircuitBreakerError (e : value) : bool :=
  match e with
  | VCircuitBreakerError _ => true
  | _ => false
  end.

(** [e === undefined || e === null] *)
Definition is_nullish (e : value) : bool :=
  match e with
  | VUndefined | VNull => true
  | _ => false
  end.

(** A [number] used as a counter: an integer or [NaN]. *)
Inductive number : Type :=
| NaN
| Int (z : Z).

(** [ToNumber] of a field that may still be [undefined]. *)
Definition ToNumber (f : option number) : number :=
  match f with
  | None => NaN
  | Some n => n
  end.

(** [x++] seen from the field: the new value of the field. *)
Definition increment (f : option number) : number :=
  match ToNumber f with
  | NaN => NaN
  | Int z => Int (z + 1)
  end.

(** [x <= y] and [x > y] for a counter [x] and an integer [y]; every
    comparison with [NaN] is false. *)
Definition le (x : number) (y : Z) : bool :=
  match x with
  | NaN => false
  | Int z => z <=? y
  end.

Definition gt (x : number) (y : Z) : bool :=
  match x with
  | NaN => false
  | Int z => z >? y
  end.

(** [ToBoolean] of a boolean field that may still be [undefined]. *)
Definition truthy (f : option bool) : bool :=
  match f with
  | Some b => b
  | None => false
  end.

(** [new Date('0001-01-01T00:00:00Z').getTime()] *)
Definition year_one : Z := -62135596800000.

(** A [Date] object, by its time value; [None] is an Invalid Date, whose
    [getTime()] is [NaN]. *)
Definition Date : Type := option Z.

(** The double that holds a time value (exact: time values stay below
    2^53 in size). *)
Definition number_of_time (ms : Z) : float :=
  SF2Prim (binary_normalize prec emax ms 0 false).

(** [TimeClip]: no time value for [NaN], an infinity or a number beyond
    8.64e15 in size; otherwise the number with its fraction cut off.  (A
    double beyond 2^52 in size has no fraction, so that cutting first and
    comparing after gives the same.) *)
Definition TimeClip (t : float) : Date :=
  match Prim2SF t with
  | S754_zero _ => Some 0
  | S754_finite negative m e =>
      let magnitude := Z.shiftl (Z.pos m) e in
      if magnitude >? 8640000000000000 then None
      else Some (if negative then - magnitude else magnitude)
  | S754_infinity _ | S754_nan => None
  end.

(** [new Date(now.getTime() + interval)] *)
Definition Date_after (now : Z) (interval : float) : Date :=
  TimeClip (PrimFloat.add (number_of_time now) interval).

(** [now.getTime() >= d.getTime()]: false for an Invalid Date. *)
Definition Date_reached (d : Date) (now : Z) : bool :=
  match d with
  | Some t => t <=? now
  | None => false
  end.

(** The same as a proposition: [d] is a valid date, not after [now]. *)
Definition reached (d : Date) (now : Z) : Prop :=
  match d with
  | Some t => t <= now
  | None => False
  end.

(** Decimal digits of a natural number. *)
Definition digits (n : N) : string :=
  NilZero.string_of_uint (N.to_uint n).

(** The three digits of a fraction of thousandths, without the zeros at
    the end: [5] is ["005"], [50] is ["05"], [500] is ["5"]. *)
Definition thousandths (r : N) : string :=
  let d1 := (r / 100)%N in
  let d2 := ((r / 10) mod 10)%N in
  let d3 := (r mod 10)%N in
  if (d3 =? 0)%N then
    if (d2 =? 0)%N then digits d1 else digits d1 ++ digits d2
  else digits d1 ++ digits d2 ++ digits d3.

(** [`${ms / 1000}`]: the string JavaScript prints for a whole number of
    milliseconds divided by 1000: the integral part, then the thousandths
    if there are any.  (This is the shortest decimal that reads back as
    the same double for every elapsed time a process can live to see; the
    exponent notation only starts at 10^21.) *)
Definition seconds_to_string (ms : Z) : string :=
  let a := Z.abs_N ms in
  let q := (a / 1000)%N in
  let r := (a mod 1000)%N in
  let body := if (r =? 0)%N then digits q else digits q ++ "." ++ thousandths r in
  if ms <? 0 then "-" ++ body else body.

End Js.

Import Js.

(** The environment of a call: the clock and the log of caller effects. *)
Record World : Type := mkWorld {
  clock : Z;
  effects : list string
}.

(** ** base/circuit_breaker_base.ts *)

Module CircuitBreakerBase.

(** The fields of the abstract class. *)
Record t : Type := mk {
  _isTripped : bool;
  trippedAt : option Z
}.

(** State of a breaker right after construction. *)
Definition create : t :=
  {| _isTripped := false; trippedAt := None |}.

Definition isTripped (cb : t) : bool := _isTripped cb.

Definition reset (cb : t) : bool * t :=
  if negb (_isTripped cb) then (false, cb)
  else (true, {| _isTripped := false; trippedAt := None |}).

Definition trip (now : Z) (cb : t) : bool * t :=
  if _isTripped cb then (false, cb)
  else (true, {| _isTripped := true; trippedAt := Some now |}).

(** The text of the trip error of a breaker called [n]. *)
Definition trip_message (n : string) (elapsed : Z) : string :=
  "'" ++ n ++ "' has been tripped for " ++ seconds_to_string elapsed ++ " seconds.".

Section Methods.

(** [protected abstract get name(): string]: what reading the getter of
    the concrete class does. *)
Variable name : completion string.

Definition getTripError (now : Z) (cb : t) : completion value :=
  let trippedAt :=
    now - match trippedAt cb with Some t => t | None => now end in
  match name with
  | Throw e => Throw e
  | Normal n => Normal (VCircuitBreakerError (trip_message n trippedAt))
  end.

Definition test (now : Z) (cb : t) : completion unit :=
  if _isTripped cb then
    match getTripError now cb with
    | Throw e => Throw e
    | Normal err => Throw err
    end
  else Normal tt.

End Methods.

(** The invariant of the data model: the trip time is present exactly
    when the breaker is tripped. *)
Definition wf (cb : t) : Prop :=
  match trippedAt cb with
  | Some _ => _isTripped cb = true
  | None => _isTripped cb = false
  end.

End CircuitBreakerBase.

(** ** circuit_breakers/circuit_breaker.ts *)

Module CircuitBreaker.

Record t : Type := mk {
  _name : string;
  base : CircuitBreakerBase.t
}.

(** [new CircuitBreaker(name)] *)
Definition create (name : string) : t :=
  {| _name := name; base := CircuitBreakerBase.create |}.

(** [get name()] returns the stored string. *)
Definition name (cb : t) : completion string := Normal (_name cb).

Definition isTripped (cb : t) : bool := CircuitBreakerBase.isTripped (base cb).

Definition trip (now : Z) (cb : t) : bool * t :=
  let (r, b) := CircuitBreakerBase.trip now (base cb) in
  (r, {| _name := _name cb; base := b |}).

Definition reset (cb : t) : bool * t :=
  let (r, b) := CircuitBreakerBase.reset (base cb) in
  (r, {| _name := _name cb; base := b |}).

Definition getTripError (now : Z) (cb : t) : completion value :=
  CircuitBreakerBase.getTripError (name cb) now (base cb).

End CircuitBreaker.

(** ** base/execution_circuit_breaker_base.ts *)

Module ExecutionCircuitBreakerBase.

(** The abstract members that a concrete execution breaker supplies, over
    its own fields [S]. *)
Class Strategy (S : Type) : Type := {
  name : S -> completion string;
  retryInterval : S -> completion float;
  shouldTrip : value -> Z -> S -> completion bool * S
}.

Record t (S : Type) : Type := mk {
  base : CircuitBreakerBase.t;
  _nextRetry : Date;
  _shouldRetry : option bool;
  self : S
}.
Arguments mk {S}.
Arguments base {S}.
Arguments _nextRetry {S}.
Arguments _shouldRetry {S}.
Arguments self {S}.

Section Wrapper.

Context {S : Type} `{Strategy S}.

(** [Action], [AsyncAction]: code of the caller.  It runs in the world
    and may change it (the clock moves on); it may also reach the breaker
    that runs it, through the closure or, while an asynchronous action is
    awaited, through another call, and so it hands the breaker back as it
    leaves it.  It returns or throws; for an asynchronous action that is
    how its promise settles. *)
Definition Action : Type := t S -> World -> completion unit * t S * World.
Definition AsyncAction : Type := Action.

(** [super()] followed by the field initialisers; the fields of the
    concrete class are [s]. *)
Definition create (s : S) : t S :=
  {| base := CircuitBreakerBase.create;
     _nextRetry := Some year_one;
     _shouldRetry := None;
     self := s |}.

Definition isTripped (cb : t S) : bool := CircuitBreakerBase.isTripped (base cb).

Definition test (now : Z) (cb : t S) : completion unit :=
  CircuitBreakerBase.test (name (self cb)) now (base cb).

Definition trip (now : Z) (cb : t S) : bool * t S :=
  let (r, b) := CircuitBreakerBase.trip now (base cb) in
  (r, {| base := b; _nextRetry := _nextRetry cb;
         _shouldRetry := _shouldRetry cb; self := self cb |}).

Definition _isTimeForRetry (now : Z) (cb : t S) : bool :=
  Date_reached (_nextRetry cb) now.

Definition _attemptToProceed (now : Z) (cb : t S) : completion unit :=
  match test now cb with
  | Normal _ => Normal tt
  | Throw e =>
      if negb (instanceof_CircuitBreakerError e) then Throw e
      else if negb (_isTimeForRetry now cb) || negb (truthy (_shouldRetry cb))
           then Throw e
           else Normal tt
  end.

Definition reset (cb : t S) : bool * t S :=
  let (r, b) := CircuitBreakerBase.reset (base cb) in
  (r, {| base := b; _nextRetry := Some year_one;
         _shouldRetry := _shouldRetry cb; self := self cb |}).

(** The [finally] block of [execute]. *)
Definition set_shouldRetry (cb : t S) : t S :=
  {| base := base cb; _nextRetry := _nextRetry cb;
     _shouldRetry := Some true; self := self cb |}.

(** The [catch (e)] block of [execute], up to its [throw e]: the state
    left behind and the value that leaves the block, which is [e] unless
    [shouldTrip] or the [retryInterval] getter throws first. *)
Definition on_failure (e : value) (now : Z) (cb : t S) : value * t S :=
  let (decision, s1) := shouldTrip e now (self cb) in
  let cb1 := {| base := base cb; _nextRetry := _nextRetry cb;
                _shouldRetry := _shouldRetry cb; self := s1 |} in
  match decision with
  | Throw e' => (e', cb1)
  | Normal false => (e, cb1)
  | Normal true =>
      match retryInterval (self cb1) with
      | Throw e' => (e', cb1)
      | Normal interval =>
          let cb2 := {| base := base cb1;
                        _nextRetry := Date_after now interval;
                        _shouldRetry := _shouldRetry cb1; self := self cb1 |} in
          (e, snd (trip now cb2))
      end
  end.

Definition execute (action : Action) (cb : t S) (w : World)
  : completion unit * t S * World :=
  match _attemptToProceed (clock w) cb with
  | Throw e => (Throw e, cb, w)
  | Normal _ =>
      let '(r, cb0, w1) := action cb w in
      match r with
      | Throw e =>
          let (thrown, cb1) := on_failure e (clock w1) cb0 in
          (Throw thrown, set_shouldRetry cb1, w1)
      | Normal _ =>
          (Normal tt, snd (reset (set_shouldRetry cb0)), w1)
      end
  end.

(** [executeAsync]: the same statements around [await action()].  The
    completion is the settlement of the returned promise. *)
Definition executeAsync (action : AsyncAction) (cb : t S) (w : World)
  : completion unit * t S * World :=
  match _attemptToProceed (clock w) cb with
  | Throw e => (Throw e, cb, w)
  | Normal _ =>
      let '(r, cb0, w1) := action cb w in
      match r with
      | Throw e =>
          let (thrown, cb1) := on_failure e (clock w1) cb0 in
          (Throw thrown, set_shouldRetry cb1, w1)
      | Normal _ =>
          (Normal tt, snd (reset (set_shouldRetry cb0)), w1)
      end
  end.

End Wrapper.

End ExecutionCircuitBreakerBase.

(** ** circuit_breakers/execution_circuit_breaker.ts *)

Module ExecutionCircuitBreaker.

(** Code of the caller: each of the two returns or throws. *)
Definition FailureDetector : Type := value -> completion bool.
Definition RetryIntervalCalculator : Type := unit -> completion float.

Record fields : Type := mk {
  _name : string;
  _failureDetector : FailureDetector;
  _retryIntervalCalculator : RetryIntervalCalculator
}.

#[global] Instance strategy : ExecutionCircuitBreakerBase.Strategy fields := {|
  ExecutionCircuitBreakerBase.name := fun s => Normal (_name s);
  ExecutionCircuitBreakerBase.retryInterval := fun s => _retryIntervalCalculator s tt;
  ExecutionCircuitBreakerBase.shouldTrip :=
    fun error _ s => (_failureDetector s error, s)
|}.

(** The constructor; an argument that is [undefined] or [null] is [None]. *)
Definition create (name : option string)
  (failureDetector : option FailureDetector)
  (retryIntervalCalculator : option RetryIntervalCalculator)
  : completion (ExecutionCircuitBreakerBase.t fields) :=
  match name with
  | None | Some "" => Throw (VError "The name parameter is required.")
  | Some n =>
    match failureDetector with
    | None => Throw (VError "The failureDetector parameter is required.")
    | Some fd =>
      match retryIntervalCalculator with
      | None => Throw (VError "The retryIntervalCalculator parameter is required.")
      | Some ric =>
          Normal (ExecutionCircuitBreakerBase.create
                    {| _name := n; _failureDetector := fd;
                       _retryIntervalCalculator := ric |})
      end
    end
  end.

End ExecutionCircuitBreaker.

(** ** circuit_breakers/threshold_execution_circuit_breaker.ts *)

Module ThresholdExecutionCircuitBreaker.

Definition ErrorCountGetter : Type := unit -> Z.
Definition ErrorIntervalGetter : Type := unit -> Z.

Record fields : Type := mk {
  _name : string;
  _failureDetector : ExecutionCircuitBreaker.FailureDetector;
  _retryIntervalCalculator : ExecutionCircuitBreaker.RetryIntervalCalculator;
  _errorCountGetter : ErrorCountGetter;
  _errorIntervalGetter : ErrorIntervalGetter;
  _errorCountIntervalEnd : Z;
  _errorCount : option number
}.

(** Assignment to the two fields of the window. *)
Definition with_window (s : fields) (count : option number) (windowEnd : Z) : fields :=
  {| _name := _name s;
     _failureDetector := _failureDetector s;
     _retryIntervalCalculator := _retryIntervalCalculator s;
     _errorCountGetter := _errorCountGetter s;
     _errorIntervalGetter := _errorIntervalGetter s;
     _errorCountIntervalEnd := windowEnd;
     _errorCount := count |}.

Definition _resetErrorCount (now : Z) (s : fields) : fields :=
  with_window s (Some (Int 0)) (now + _errorIntervalGetter s tt).

Definition shouldTrip (error : value) (now : Z) (s : fields) : completion bool * fields :=
  if is_nullish error then
    (Throw (VError "error cannot be null or undefined."), s)
  else
    match _failureDetector s error with
    | Throw e => (Throw e, s)
    | Normal true =>
        let s1 := if now >? _errorCountIntervalEnd s then _resetErrorCount now s else s in
        let s2 := with_window s1 (Some (increment (_errorCount s1)))
                    (_errorCountIntervalEnd s1) in
        if gt (ToNumber (_errorCount s2)) (_errorCountGetter s2 tt)
        then (Normal true, s2)
        else (Normal false, s2)
    | Normal false => (Normal false, s)
    end.

#[global] Instance strategy : ExecutionCircuitBreakerBase.Strategy fields := {|
  ExecutionCircuitBreakerBase.name := fun s => Normal (_name s);
  ExecutionCircuitBreakerBase.retryInterval := fun s => _retryIntervalCalculator s tt;
  ExecutionCircuitBreakerBase.shouldTrip := shouldTrip
|}.

(** The fields right after the constructor has run. *)
Definition initial (name : string)
  (failureDetector : ExecutionCircuitBreaker.FailureDetector)
  (retryIntervalCalculator : ExecutionCircuitBreaker.RetryIntervalCalculator)
  (errorCountGetter : ErrorCountGetter)
  (errorIntervalGetter : ErrorIntervalGetter) : fields :=
  {| _name := name;
     _failureDetector := failureDetector;
     _retryIntervalCalculator := retryIntervalCalculator;
     _errorCountGetter := errorCountGetter;
     _errorIntervalGetter := errorIntervalGetter;
     _errorCountIntervalEnd := year_one;
     _errorCount := None |}.

(** The constructor; an argument that is [undefined] or [null] is [None]. *)
Definition create (name : option string)
  (failureDetector : option ExecutionCircuitBreaker.FailureDetector)
  (retryIntervalCalculator : option ExecutionCircuitBreaker.RetryIntervalCalculator)
  (errorCountGetter : option ErrorCountGetter)
  (errorIntervalGetter : option ErrorIntervalGetter)
  : completion (ExecutionCircuitBreakerBase.t fields) :=
  match name with
  | None | Some "" => Throw (VError "name cannot be null, undefined or empty.")
  | Some n =>
    match failureDetector, retryIntervalCalculator with
    | None, _ => Throw (VError "failureDetector cannot be null or undefined.")
    | Some _, None => Throw (VError "retryIntervalCalculator cannot be null or undefined.")
    | Some fd, Some ric =>
      match errorCountGetter, errorIntervalGetter with
      | None, _ => Throw (VError "errorCountGetter cannot be null or undefined.")
      | Some _, None => Throw (VError "errorIntervalGetter cannot be null or undefined.")
      | Some ecg, Some eig =>
          Normal (ExecutionCircuitBreakerBase.create (initial n fd ric ecg eig))
      end
    end
  end.

End ThresholdExecutionCircuitBreaker.

(** ** policy/default_circuit_breaker_policy_config.ts and its interface *)

Module DefaultCircuitBreakerPolicyConfig.

(** What a policy reads from its configuration
    ([IDefaultCircuitBreakerPolicyConfig]). *)
Record t : Type := mk {
  retryInterval : Z;
  failuresAllowedBeforeTrip : Z
}.

(** [new DefaultCircuitBreakerPolicyConfig()] *)
Definition create : t :=
  {| retryInterval := 250; failuresAllowedBeforeTrip := 0 |}.

Definition set_retryInterval (value : Z) (c : t) : t :=
  {| retryInterval := value; failuresAllowedBeforeTrip := failuresAllowedBeforeTrip c |}.

Definition set_failuresAllowedBeforeTrip (value : Z) (c : t) : completion t :=
  if value <? 0 then Throw (VError "Failures allowed before trip is out of range.")
  else Normal {| retryInterval := retryInterval c; failuresAllowedBeforeTrip := value |}.

End DefaultCircuitBreakerPolicyConfig.

(** ** base/circuit_breaker_policy_base.ts and
       policy/default_circuit_breaker_policy.ts *)

Module DefaultCircuitBreakerPolicy.

Module Config := DefaultCircuitBreakerPolicyConfig.

(** [OnRequestToOpen]: an observer of type [() => void]; it acts on the
    world of the caller and returns. *)
Definition Callback : Type := World -> World.

(** [OnTerminatingRequest]: code of the caller run just before the trip
    error is thrown; it acts on the world and returns or throws. *)
Definition OnTerminatingRequest : Type := World -> completion unit * World.

(** [this.callback?.()] *)
Definition call_optional (f : option Callback) (w : World) : World :=
  match f with
  | Some g => g w
  | None => w
  end.

Section Policy.

(** [TExecutionContext] *)
Variable Context_ : Type.

(** [ITripReasonAuthority<TExecutionContext>], by its one method
    [isReasonForTrip(executionContext, error)]. *)
Definition TripReasonAuthority : Type := Context_ -> value -> bool.

Record t : Type := mk {
  _tripReasonAuthority : TripReasonAuthority;
  onTerminatingRequest : option OnTerminatingRequest;
  onRequestToOpen : option Callback;
  _circuitBreaker : CircuitBreaker.t;
  _shouldRetry : option bool;
  _consecutiveFailures : option number;
  _nextRetry : Z;
  config : Config.t
}.

(** The two constructors, base class first; an argument that is
    [undefined] or [null] is [None]. *)
Definition create (circuitBreakerIdentifier : option string)
  (config : option Config.t)
  (tripReasonAuthority : option TripReasonAuthority) : completion t :=
  match tripReasonAuthority with
  | None => Throw (VError "The trip reason authority cannot be null or undefined.")
  | Some authority =>
    match circuitBreakerIdentifier with
    | None | Some "" =>
        Throw (VError "The circuit breaker identifier cannot be null or undefined.")
    | Some identifier =>
      match config with
      | None =>
          Throw (VError "The circuit breaker policy configuration cannot be null or undefined.")
      | Some cfg =>
          if Config.failuresAllowedBeforeTrip cfg <? 0 then
            Throw (VError "The number of failures allowed before trip cannot be less than zero.")
          else
            Normal {| _tripReasonAuthority := authority;
                      onTerminatingRequest := None;
                      onRequestToOpen := None;
                      _circuitBreaker := CircuitBreaker.create identifier;
                      _shouldRetry := None;
                      _consecutiveFailures := None;
                      _nextRetry := year_one;
                      config := cfg |}
      end
    end
  end.

(** Assignments of the caller to the two public callback fields. *)
Definition set_onTerminatingRequest (f : option OnTerminatingRequest) (p : t) : t :=
  {| _tripReasonAuthority := _tripReasonAuthority p;
     onTerminatingRequest := f;
     onRequestToOpen := onRequestToOpen p;
     _circuitBreaker := _circuitBreaker p;
     _shouldRetry := _shouldRetry p;
     _consecutiveFailures := _consecutiveFailures p;
     _nextRetry := _nextRetry p;
     config := config p |}.

Definition set_onRequestToOpen (f : option Callback) (p : t) : t :=
  {| _tripReasonAuthority := _tripReasonAuthority p;
     onTerminatingRequest := onTerminatingRequest p;
     onRequestToOpen := f;
     _circuitBreaker := _circuitBreaker p;
     _shouldRetry := _shouldRetry p;
     _consecutiveFailures := _consecutiveFailures p;
     _nextRetry := _nextRetry p;
     config := config p |}.

(** Assignment to the private fields that the methods write. *)
Definition with_state (p : t) (cb : CircuitBreaker.t) (shouldRetry : option bool)
  (failures : option number) (nextRetry : Z) : t :=
  {| _tripReasonAuthority := _tripReasonAuthority p;
     onTerminatingRequest := onTerminatingRequest p;
     onRequestToOpen := onRequestToOpen p;
     _circuitBreaker := cb;
     _shouldRetry := shouldRetry;
     _consecutiveFailures := failures;
     _nextRetry := nextRetry;
     config := config p |}.

Definition isCircuitBreakerOpen (executionContext : Context_) (now : Z) (p : t)
  : completion (bool * value) :=
  if negb (CircuitBreaker.isTripped (_circuitBreaker p)) then
    Normal (false, VUndefined)
  else if (_nextRetry p <=? now) && negb (truthy (_shouldRetry p)) then
    Normal (false, VUndefined)
  else
    match CircuitBreaker.getTripError now (_circuitBreaker p) with
    | Throw e => Throw e
    | Normal err => Normal (true, err)
    end.

Definition onSuccessfulRequest (executionContext : Context_) (p : t) : t :=
  with_state p (snd (CircuitBreaker.reset (_circuitBreaker p)))
    (_shouldRetry p) (Some (Int 0)) (_nextRetry p).

Definition onNotified (executionContext : Context_) (p : t) : t :=
  with_state p (_circuitBreaker p) (Some false) (_consecutiveFailures p) (_nextRetry p).

Definition tryToTripCircuitBreaker (executionContext : Context_) (now : Z) (p : t)
  : bool * t :=
  let failures := increment (_consecutiveFailures p) in
  let p1 := with_state p (_circuitBreaker p) (_shouldRetry p) (Some failures) (_nextRetry p) in
  if le failures (Config.failuresAllowedBeforeTrip (config p1)) then (false, p1)
  else
    let nextRetry := now + Config.retryInterval (config p1) in
    (true,
     with_state p1 (snd (CircuitBreaker.trip now (_circuitBreaker p1)))
       (_shouldRetry p1) (_consecutiveFailures p1) nextRetry).

(** [notifyRequestFinished], for a notification that completes: the
    authority and the [onRequestToOpen] observer return, nothing else in
    the [try] block throws, and the [finally] block is its last
    statement. *)
Definition notifyRequestFinished (executionContext : Context_) (error : value)
  (p : t) (w : World) : t * World :=
  if _tripReasonAuthority p executionContext error then
    let w1 := call_optional (onRequestToOpen p) w in
    let p1 := snd (tryToTripCircuitBreaker executionContext (clock w1) p) in
    (onNotified executionContext p1, w1)
  else
    (onNotified executionContext (onSuccessfulRequest executionContext p), w).

Definition throwIfTripped (executionContext : Context_) (p : t) (w : World)
  : completion unit * World :=
  match isCircuitBreakerOpen executionContext (clock w) p with
  | Throw e => (Throw e, w)
  | Normal (isTripped, ex) =>
      if negb isTripped then (Normal tt, w)
      else
        match onTerminatingRequest p with
        | None => (Throw ex, w)
        | Some hook =>
            let (r, w1) := hook w in
            match r with
            | Throw e => (Throw e, w1)
            | Normal _ => (Throw ex, w1)
            end
        end
  end.

(** A run of notifications, each at its own moment: the clock value when
    the notification arrives, the context and the error reported. *)
Fixpoint notifyAll (calls : list (Z * Context_ * value)) (p : t) (w : World)
  : t * World :=
  match calls with
  | [] => (p, w)
  | (now, ctx, error) :: rest =>
      let (p1, w1) :=
        notifyRequestFinished ctx error p {| clock := now; effects := effects w |} in
      notifyAll rest p1 w1
  end.

(** Every call of the run is a reason for a trip. *)
Definition all_failures (authority : TripReasonAuthority)
  (calls : list (Z * Context_ * value)) : Prop :=
  Forall (fun call => authority (snd (fst call)) (snd call) = true) calls.

End Policy.

Arguments _tripReasonAuthority {Context_}.
Arguments onTerminatingRequest {Context_}.
Arguments onRequestToOpen {Context_}.
Arguments _circuitBreaker {Context_}.
Arguments _shouldRetry {Context_}.
Arguments _consecutiveFailures {Context_}.
Arguments _nextRetry {Context_}.
Arguments config {Context_}.
Arguments create {Context_}.
Arguments set_onTerminatingRequest {Context_}.
Arguments set_onRequestToOpen {Context_}.
Arguments with_state {Context_}.
Arguments isCircuitBreakerOpen {Context_}.
Arguments onSuccessfulRequest {Context_}.
Arguments onNotified {Context_}.
Arguments tryToTripCircuitBreaker {Context_}.
Arguments notifyRequestFinished {Context_}.
Arguments throwIfTripped {Context_}.
Arguments notifyAll {Context_}.
Arguments all_failures {Context_}.

End DefaultCircuitBreakerPolicy.

(** ** enums/jitter.ts *)

Module Jitter.

Inductive t : Type :=
| None
| Full
| Equal.

End Jitter.

(** ** exponential_backoff.ts *)

Module ExponentialBackoff.

Local Open Scope float_scope.

(** [Math.min(x, y)] on IEEE doubles: [NaN] if either is [NaN], and
    [-0] below [+0]. *)
Definition Math_min (x y : float) : float :=
  if (is_nan x || is_nan y)%bool then nan
  else if x <? y then x
  else if y <? x then y
  else if get_sign x then x else y.

Definition ceilingForMaxAttempts : float := 10.

Section Host.

(** [Math.pow] and [Math.random] belong to the host.  The source of
    randomness is a state [RandomSource]; one call of [Math.random()]
    returns a number and moves the source on. *)
Variable Math_pow : float -> float -> float.
Variable RandomSource : Type.
Variable Math_random : RandomSource -> float * RandomSource.

Definition calculateBackoff (attempt maxAttempts baseDelay maxDelay : float)
  (jitter : Jitter.t) (g : RandomSource) : completion float * RandomSource :=
  if ((maxAttempts <? 0) || (ceilingForMaxAttempts <? maxAttempts))%bool then
    (Throw (VError "The max attempts must be between 0 and 10."), g)
  else
    let attempt := if maxAttempts <? attempt then maxAttempts else attempt in
    let delay := Math_min (baseDelay * Math_pow 2 (attempt - 1)) maxDelay in
    let (nextRandomValue, g') := Math_random g in
    match jitter with
    | Jitter.Full => (Normal (delay * nextRandomValue), g')
    | Jitter.Equal => (Normal (delay * (0.5 + nextRandomValue * 0.5)), g')
    | Jitter.None => (Normal delay, g')
    end.

(** The delay as the specification words it: clamp the attempt, take the
    smaller of the doubled delay and the cap, then scale by the jitter
    factor for the drawn number [r]. *)
Definition clamped_attempt (attempt maxAttempts : float) : float :=
  if maxAttempts <? attempt then maxAttempts else attempt.

Definition base_delay (attempt baseDelay maxDelay : float) : float :=
  Math_min (baseDelay * Math_pow 2 (attempt - 1)) maxDelay.

Definition jittered (jitter : Jitter.t) (delay r : float) : float :=
  match jitter with
  | Jitter.None => delay
  | Jitter.Full => delay * r
  | Jitter.Equal => delay * (0.5 + 0.5 * r)
  end.

End Host.

Arguments calculateBackoff Math_pow {RandomSource} Math_random.

(** Stand-ins for the host in examples: a power function for whole
    exponents from 0 to 63, by repeated multiplication, and a source of
    randomness that is a fixed list of numbers. *)
Fixpoint pow_search (fuel : nat) (b e acc k : float) : float :=
  match fuel with
  | O => nan
  | S f => if e =? k then acc else pow_search f b e (acc * b) (k + 1)
  end.

Definition pow_whole (b e : float) : float := pow_search 64 b e 1 0.

Definition scripted_random (g : list float) : float * list float :=
  match g with
  | [] => (0, [])
  | r :: rest => (r, rest)
  end.

End ExponentialBackoff.

(** ** Sample objects *)

Module Samples.

(** A breaker that trips on every error and retries after five seconds. *)
Definition breaker : ExecutionCircuitBreakerBase.t ExecutionCircuitBreaker.fields :=
  ExecutionCircuitBreakerBase.create
    {| ExecutionCircuitBreaker._name := "db";
       ExecutionCircuitBreaker._failureDetector := fun _ => Normal true;
       ExecutionCircuitBreaker._retryIntervalCalculator := fun _ => Normal 5000%float |}.

(** The same breaker with a retry interval calculator of its own. *)
Definition breaker_with (calculator : ExecutionCircuitBreaker.RetryIntervalCalculator)
  : ExecutionCircuitBreakerBase.t ExecutionCircuitBreaker.fields :=
  ExecutionCircuitBreakerBase.create
    {| ExecutionCircuitBreaker._name := "db";
       ExecutionCircuitBreaker._failureDetector := fun _ => Normal true;
       ExecutionCircuitBreaker._retryIntervalCalculator := calculator |}.

(** A breaker whose [name] getter throws. *)
Record faulty : Type := Faulty { }.

#[global] Instance faulty_strategy : ExecutionCircuitBreakerBase.Strategy faulty := {|
  ExecutionCircuitBreakerBase.name := fun _ => Throw (VOther "TestError");
  ExecutionCircuitBreakerBase.retryInterval := fun _ => Normal 5000%float;
  ExecutionCircuitBreakerBase.shouldTrip := fun _ _ s => (Normal true, s)
|}.

Definition faulty_breaker : ExecutionCircuitBreakerBase.t faulty :=
  ExecutionCircuitBreakerBase.create Faulty.

(** Actions: one that succeeds and one that fails, each taking 10 ms,
    leaving a mark in the log and not touching the breaker. *)
Definition succeed {S : Type} : @ExecutionCircuitBreakerBase.Action S :=
  fun cb w =>
    (Normal tt, cb, {| clock := clock w + 10; effects := "ok" :: effects w |}).

Definition fail {S : Type} : @ExecutionCircuitBreakerBase.Action S :=
  fun cb w =>
    (Throw (VOther "TestError"), cb,
     {| clock := clock w + 10; effects := "failed" :: effects w |}).

Definition at_ (now : Z) : World := {| clock := now; effects := [] |}.

(** Some moment of November 2022. *)
Definition t0 : Z := 1667430000000.

(** A windowed breaker: more than one failure within a minute trips it. *)
Definition windowed : ThresholdExecutionCircuitBreaker.fields :=
  ThresholdExecutionCircuitBreaker.initial "db" (fun _ => Normal true)
    (fun _ => Normal 5000%float) (fun _ => 1) (fun _ => 60000).

(** A policy that allows [n] failures and counts every reported error,
    first as the constructor call, then as the object it returns. *)
Definition authority : DefaultCircuitBreakerPolicy.TripReasonAuthority unit :=
  fun _ error => negb (is_nullish error).

Definition policy_config (n : Z) : DefaultCircuitBreakerPolicyConfig.t :=
  {| DefaultCircuitBreakerPolicyConfig.retryInterval := 250;
     DefaultCircuitBreakerPolicyConfig.failuresAllowedBeforeTrip := n |}.

Definition new_policy (n : Z) : completion (DefaultCircuitBreakerPolicy.t unit) :=
  DefaultCircuitBreakerPolicy.create (Some "db") (Some (policy_config n)) (Some authority).

Definition policy (n : Z) : DefaultCircuitBreakerPolicy.t unit :=
  {| DefaultCircuitBreakerPolicy._tripReasonAuthority := authority;
     DefaultCircuitBreakerPolicy.onTerminatingRequest := None;
     DefaultCircuitBreakerPolicy.onRequestToOpen := None;
     DefaultCircuitBreakerPolicy._circuitBreaker := CircuitBreaker.create "db";
     DefaultCircuitBreakerPolicy._shouldRetry := None;
     DefaultCircuitBreakerPolicy._consecutiveFailures := None;
     DefaultCircuitBreakerPolicy._nextRetry := year_one;
     DefaultCircuitBreakerPolicy.config := policy_config n |}.

(** Hooks that leave a mark in the log; the second one then throws. *)
Definition mark (label : string) : DefaultCircuitBreakerPolicy.OnTerminatingRequest :=
  fun w => (Normal tt, {| clock := clock w; effects := label :: effects w |}).

Definition mark_and_throw (label : string)
  : DefaultCircuitBreakerPolicy.OnTerminatingRequest :=
  fun w => (Throw (VOther label), {| clock := clock w; effects := label :: effects w |}).

End Samples.

(** ** Runs of operations *)

Module Runs.

(** The two mutators of a breaker, as a caller may issue them. *)
Inductive breaker_op : Type :=
| OpTrip (now : Z)
| OpReset.

Definition apply_op (cb : CircuitBreakerBase.t) (op : breaker_op) : CircuitBreakerBase.t :=
  match op with
  | OpTrip now => snd (CircuitBreakerBase.trip now cb)
  | OpReset => snd (CircuitBreakerBase.reset cb)
  end.

Definition run_ops (ops : list breaker_op) (cb : CircuitBreakerBase.t)
  : CircuitBreakerBase.t :=
  fold_left apply_op ops cb.

(** Errors handed one after the other to [shouldTrip] of a windowed
    breaker, each with the time of the call; the answers come back in the
    same order. *)
Fixpoint shouldTripAll (calls : list (value * Z))
  (s : ThresholdExecutionCircuitBreaker.fields)
  : list (completion bool) * ThresholdExecutionCircuitBreaker.fields :=
  match calls with
  | [] => ([], s)
  | (error, now) :: rest =>
      let (answer, s1) := ThresholdExecutionCircuitBreaker.shouldTrip error now s in
      let (answers, s2) := shouldTripAll rest s1 in
      (answer :: answers, s2)
  end.

(** Every error of the run is one that the failure detector counts. *)
Definition all_counted (s : ThresholdExecutionCircuitBreaker.fields)
  (calls : list (value * Z)) : Prop :=
  Forall (fun call =>
            is_nullish (fst call) = false /\
            ThresholdExecutionCircuitBreaker._failureDetector s (fst call) = Normal true)
    calls.

(** Every call of the run comes after the end of the window that the call
    before it opened; [windowEnd] is the end of the window at the start. *)
Fixpoint spaced_out (interval windowEnd : Z) (calls : list (value * Z)) : Prop :=
  match calls with
  | [] => True
  | (_, now) :: rest => windowEnd < now /\ spaced_out interval (now + interval) rest
  end.

Section PolicyStates.

Variable Context_ : Type.

(** The states a policy goes through: built by the constructor, then
    notified of outcomes and given callbacks in any order.  A notification
    either completes, or is cut short because the authority or the
    [onRequestToOpen] observer throws: then only the [finally] block has
    written. *)
Inductive reachable : DefaultCircuitBreakerPolicy.t Context_ -> Prop :=
| reach_create identifier cfg authority p :
    DefaultCircuitBreakerPolicy.create identifier cfg authority = Normal p ->
    reachable p
| reach_notify ctx error p w :
    reachable p ->
    reachable (fst (DefaultCircuitBreakerPolicy.notifyRequestFinished ctx error p w))
| reach_notify_cut_short ctx p :
    reachable p ->
    reachable (DefaultCircuitBreakerPolicy.onNotified ctx p)
| reach_onTerminatingRequest f p :
    reachable p ->
    reachable (DefaultCircuitBreakerPolicy.set_onTerminatingRequest f p)
| reach_onRequestToOpen f p :
    reachable p ->
    reachable (DefaultCircuitBreakerPolicy.set_onRequestToOpen f p).

End PolicyStates.

Arguments reachable {Context_}.

End Runs.

(** ** Timers of the host *)

Module Timers.

(** The timers that [setInterval] has started and [clearInterval] has not
    stopped, each with its delay, and the handle the next one will get. *)
Record t : Type := mk {
  next : nat;
  active : list (nat * Z)
}.

Definition empty : t := {| next := 0; active := [] |}.

Definition setInterval (delay : Z) (h : t) : nat * t :=
  (next h, {| next := S (next h); active := (next h, delay) :: active h |}).

Definition clearInterval (id : nat) (h : t) : t :=
  {| next := next h;
     active := filter (fun timer => negb (fst timer =? id)%nat) (active h) |}.

Definition is_active (id : nat) (h : t) : bool :=
  existsb (fun timer => (fst timer =? id)%nat) (active h).

End Timers.

(** ** sentinels/service_sentinel.ts *)

Module ServiceSentinel.

(** [HealthCheck]: code of the caller that looks at the world and answers,
    or throws. *)
Definition HealthCheck : Type := World -> completion bool.
Definition MonitorIntervalGetter : Type := unit -> Z.

Record t : Type := mk {
  _healthCheck : HealthCheck;
  monitorIntervalGetter : MonitorIntervalGetter;
  _isDisposed : bool;
  _isHealthy : bool;
  monitorTimer : nat
}.

(** The constructor; an argument that is [undefined] or [null] is [None].
    The timer it starts calls [monitor] on this sentinel. *)
Definition create (healthCheck : option HealthCheck)
  (monitorIntervalGetter : option MonitorIntervalGetter) (isHealthy : bool)
  (h : Timers.t) : completion t * Timers.t :=
  match healthCheck with
  | None => (Throw (VError "The healthCheck parameter is required."), h)
  | Some check =>
    match monitorIntervalGetter with
    | None => (Throw (VError "The monitorIntervalGetter parameter is required."), h)
    | Some getter =>
        let (id, h1) := Timers.setInterval (getter tt) h in
        (Normal {| _healthCheck := check;
                   monitorIntervalGetter := getter;
                   _isDisposed := false;
                   _isHealthy := isHealthy;
                   monitorTimer := id |}, h1)
    end
  end.

Definition set_isHealthy (b : bool) (s : t) : t :=
  {| _healthCheck := _healthCheck s;
     monitorIntervalGetter := monitorIntervalGetter s;
     _isDisposed := _isDisposed s;
     _isHealthy := b;
     monitorTimer := monitorTimer s |}.

Definition monitor (s : t) (w : World) : t :=
  if _isDisposed s then s
  else
    match _healthCheck s w with
    | Normal b => set_isHealthy b s
    | Throw _ => set_isHealthy false s
    end.

Definition isHealthy (s : t) : bool := _isHealthy s.

Definition dispose (disposing : bool) (s : t) (h : Timers.t) : t * Timers.t :=
  if _isDisposed s then (s, h)
  else if disposing then
    ({| _healthCheck := _healthCheck s;
        monitorIntervalGetter := monitorIntervalGetter s;
        _isDisposed := true;
        _isHealthy := _isHealthy s;
        monitorTimer := monitorTimer s |},
     Timers.clearInterval (monitorTimer s) h)
  else (s, h).

End ServiceSentinel.

(** ** sentinels/togglable_service_sentinel.ts *)

Module TogglableServiceSentinel.

Record t : Type := mk {
  sentinel : ServiceSentinel.t;
  _isRunning : bool
}.

Definition create (healthCheck : option ServiceSentinel.HealthCheck)
  (monitorIntervalGetter : option ServiceSentinel.MonitorIntervalGetter)
  (isHealthy : bool) (h : Timers.t) : completion t * Timers.t :=
  match ServiceSentinel.create healthCheck monitorIntervalGetter isHealthy h with
  | (Throw e, h1) => (Throw e, h1)
  | (Normal s, h1) => (Normal {| sentinel := s; _isRunning := true |}, h1)
  end.

Definition set_monitorTimer (id : nat) (s : ServiceSentinel.t) : ServiceSentinel.t :=
  {| ServiceSentinel._healthCheck := ServiceSentinel._healthCheck s;
     ServiceSentinel.monitorIntervalGetter := ServiceSentinel.monitorIntervalGetter s;
     ServiceSentinel._isDisposed := ServiceSentinel._isDisposed s;
     ServiceSentinel._isHealthy := ServiceSentinel._isHealthy s;
     ServiceSentinel.monitorTimer := id |}.

Definition start (s : t) (h : Timers.t) : t * Timers.t :=
  if _isRunning s then (s, h)
  else
    let (id, h1) :=
      Timers.setInterval (ServiceSentinel.monitorIntervalGetter (sentinel s) tt) h in
    ({| sentinel := set_monitorTimer id (sentinel s); _isRunning := true |}, h1).

Definition stop (s : t) (h : Timers.t) : t * Timers.t :=
  if negb (_isRunning s) then (s, h)
  else
    ({| sentinel := sentinel s; _isRunning := false |},
     Timers.clearInterval (ServiceSentinel.monitorTimer (sentinel s)) h).

(** Inherited members. *)
Definition isHealthy (s : t) : bool := ServiceSentinel.isHealthy (sentinel s).

Definition monitor (s : t) (w : World) : t :=
  {| sentinel := ServiceSentinel.monitor (sentinel s) w; _isRunning := _isRunning s |}.

Definition dispose (disposing : bool) (s : t) (h : Timers.t) : t * Timers.t :=
  let (s1, h1) := ServiceSentinel.dispose disposing (sentinel s) h in
  ({| sentinel := s1; _isRunning := _isRunning s |}, h1).

(** What happens to a sentinel: calls of its methods, and the host firing
    one of its timers, which calls [monitor] if that timer is live. *)
Inductive event : Type :=
| Start
| Stop
| Dispose (disposing : bool)
| Fire (id : nat) (w : World).

Definition step (st : t * Timers.t) (ev : event) : t * Timers.t :=
  let (s, h) := st in
  match ev with
  | Start => start s h
  | Stop => stop s h
  | Dispose disposing => dispose disposing s h
  | Fire id w => if Timers.is_active id h then (monitor s w, h) else (s, h)
  end.

Definition run (events : list event) (st : t * Timers.t) : t * Timers.t :=
  fold_left step events st.


End TogglableServiceSentinel.

(** * Properties *)

Module CircuitBreakerBaseFacts.
Import CircuitBreakerBase.

Example seconds_to_string_1500 : seconds_to_string 1500 = "1.5".
Proof. reflexivity. Qed.

Example seconds_to_string_m50 : seconds_to_string (-50) = "-0.05".
Proof. reflexivity. Qed.

Example seconds_to_string_62001 : seconds_to_string 62001 = "62.001".
Proof. reflexivity. Qed.

Lemma create_wf : wf create.
Proof. reflexivity. Qed.

Lemma trip_wf now cb : wf cb -> wf (snd (trip now cb)).
Proof.
  destruct cb as [[] [a|]]; unfold wf, trip; simpl; auto.
Qed.

Lemma reset_wf cb : wf cb -> wf (snd (reset cb)).
Proof.
  destruct cb as [[] [a|]]; unfold wf, reset; simpl; auto.
Qed.

Lemma reset_untripped cb : isTripped (snd (reset cb)) = false.
Proof. destruct cb as [[] a]; reflexivity. Qed.

Lemma reset_result cb : fst (reset cb) = isTripped cb.
Proof. destruct cb as [[] a]; reflexivity. Qed.

Lemma trip_tripped now cb : isTripped (snd (trip now cb)) = true.
Proof. destruct cb as [[] a]; reflexivity. Qed.

(** When the breaker is tripped, [test()] throws whatever building the
    trip error produces. *)
Lemma test_tripped name now cb :
  isTripped cb = true ->
  exists e, test name now cb = Throw e /\
    (forall n, name = Normal n ->
       e = VCircuitBreakerError
             (trip_message n
                (now - match trippedAt cb with Some t => t | None => now end))) /\
    (forall v, name = Throw v -> e = v).
Proof.
  unfold isTripped, test, getTripError; intros ->.
  destruct name as [n|v]; eexists; (split; [reflexivity|]);
    split; intros ? Heq; inversion Heq; reflexivity.
Qed.

Lemma test_untripped name now cb :
  isTripped cb = false -> test name now cb = Normal tt.
Proof. unfold isTripped, test; intros ->; reflexivity. Qed.

(** C8. [trip()] performs the transition to tripped, stamping [trippedAt]
    with the current time, only on an untripped breaker and returns
    whether it did; [reset()] clears both fields only on a tripped breaker
    and returns whether it did.  A second [trip()] in a row returns false
    and changes nothing, and so does [reset()] on an untripped breaker. *)
Theorem trip_reset_idempotent :
  forall (cb : t) (now now' : Z),
    (* trip: the result tells whether the transition was made *)
    fst (trip now cb) = negb (isTripped cb) /\
    (isTripped cb = false ->
       snd (trip now cb) = {| _isTripped := true; trippedAt := Some now |}) /\
    (isTripped cb = true -> snd (trip now cb) = cb) /\
    isTripped (snd (trip now cb)) = true /\
    (* a second trip in a row *)
    trip now' (snd (trip now cb)) = (false, snd (trip now cb)) /\
    (* reset: the result tells whether the transition was made *)
    fst (reset cb) = isTripped cb /\
    (isTripped cb = true ->
       snd (reset cb) = {| _isTripped := false; trippedAt := None |}) /\
    (isTripped cb = false -> reset cb = (false, cb)) /\
    isTripped (snd (reset cb)) = false.
Proof.
  intros [tr at_] now now'; unfold trip, reset, isTripped; simpl.
  destruct tr; simpl; repeat split; intros; try reflexivity; try discriminate.
Qed.

Lemma trip_reset_idempotent_witness :
  snd (trip 7 {| _isTripped := true; trippedAt := Some 3 |})
    = {| _isTripped := true; trippedAt := Some 3 |} /\
  reset create = (false, create).
Proof.
  pose proof (trip_reset_idempotent {| _isTripped := true; trippedAt := Some 3 |} 7 7)
    as (_ & _ & Hkeep & _).
  pose proof (trip_reset_idempotent create 7 7)
    as (_ & _ & _ & _ & _ & _ & _ & Hnoop & _).
  split; [apply Hkeep | apply Hnoop]; reflexivity.
Defined.

(** C10. On a breaker whose trip time is absent, [getTripError()] does not
    fail: the missing time is replaced by the current time, and the error
    reports exactly 0 seconds. *)
Theorem getTripError_untripped_reports_zero :
  forall (cb : t) (now : Z) (n : string),
    trippedAt cb = None ->
    getTripError (Normal n) now cb =
      Normal (VCircuitBreakerError ("'" ++ n ++ "' has been tripped for 0 seconds.")).
Proof.
  intros cb now n Hat. unfold getTripError.
  rewrite Hat, Z.sub_diag. reflexivity.
Qed.

Lemma getTripError_untripped_reports_zero_witness :
  CircuitBreaker.getTripError 1667430000000 (CircuitBreaker.create "db") =
    Normal (VCircuitBreakerError "'db' has been tripped for 0 seconds.").
Proof.
  apply (getTripError_untripped_reports_zero
           CircuitBreakerBase.create 1667430000000 "db"); reflexivity.
Defined.

End CircuitBreakerBaseFacts.

Module ExecutionFacts.
Import ExecutionCircuitBreakerBase.

Lemma Date_reached_spec (d : Date) (now : Z) :
  Date_reached d now = true <-> reached d now.
Proof.
  destruct d as [t|]; simpl; [apply Z.leb_le|].
  split; [discriminate | contradiction].
Qed.

(** A valid date lies within 8.64e15 ms of the epoch. *)
Lemma TimeClip_range (x : float) (t : Z) :
  TimeClip x = Some t -> - 8640000000000000 <= t <= 8640000000000000.
Proof.
  unfold TimeClip.
  destruct (Prim2SF x) as [sign|sign| |negative m e]; try discriminate.
  - intros Hz. inversion Hz. lia.
  - destruct (Z.shiftl (Z.pos m) e >? 8640000000000000) eqn:Hbig; [discriminate|].
    rewrite Z.gtb_ltb in Hbig. apply Z.ltb_ge in Hbig.
    assert (Hpos : 0 <= Z.shiftl (Z.pos m) e) by (apply Z.shiftl_nonneg; lia).
    intros Hz. inversion Hz. destruct negative; lia.
Qed.

Section Wrapper.

Context {S : Type} `{Strategy S}.

Lemma executeAsync_execute (action : Action) (cb : t S) (w : World) :
  executeAsync action cb w = execute action cb w.
Proof. reflexivity. Qed.

(** The gate lets every call pass while the breaker is untripped. *)
Lemma gate_open_when_untripped (cb : t S) (now : Z) :
  isTripped cb = false -> _attemptToProceed now cb = Normal tt.
Proof.
  intros Hu. unfold _attemptToProceed, test.
  rewrite CircuitBreakerBaseFacts.test_untripped by exact Hu. reflexivity.
Qed.

(** What the gate answers once [test()] has thrown [e]. *)
Lemma gate_after_throw (cb : t S) (now : Z) (e : value) :
  test now cb = Throw e ->
  _attemptToProceed now cb =
    if instanceof_CircuitBreakerError e
    then if Date_reached (_nextRetry cb) now && truthy (_shouldRetry cb)
         then Normal tt else Throw e
    else Throw e.
Proof.
  intros Ht. unfold _attemptToProceed, _isTimeForRetry. rewrite Ht.
  destruct (instanceof_CircuitBreakerError e); simpl; [|reflexivity].
  destruct (Date_reached (_nextRetry cb) now), (truthy (_shouldRetry cb)); reflexivity.
Qed.

(** A call stopped at the gate changes nothing and does not run the
    action. *)
Lemma execute_stopped (action : Action) (cb : t S) (w : World) (e : value) :
  _attemptToProceed (clock w) cb = Throw e ->
  execute action cb w = (Throw e, cb, w).
Proof. intros Hg. unfold execute. rewrite Hg. reflexivity. Qed.

(** A call that passes the gate runs the action, on the breaker and the
    world as they are; it returns if and only if the action does. *)
Lemma execute_passed (action : Action) (cb : t S) (w : World) :
  _attemptToProceed (clock w) cb = Normal tt ->
  snd (execute action cb w) = snd (action cb w) /\
  (fst (fst (execute action cb w)) = Normal tt <->
   fst (fst (action cb w)) = Normal tt).
Proof.
  intros Hg. unfold execute. rewrite Hg.
  destruct (action cb w) as [[[[]|e] cb0] w1]; simpl.
  - split; [reflexivity | tauto].
  - destruct (on_failure e (clock w1) cb0) as [thrown cb1]; simpl.
    split; [reflexivity | split; discriminate].
Qed.

(** C3. While the breaker is tripped, [test()] throws.  If what it throws
    is a trip error, the call is stopped with that error, the action not
    run and nothing changed, unless the retry time has come and
    [_shouldRetry] is set: then the error is swallowed, the action runs and
    the call returns exactly when the action returns.  If what it throws
    is not a trip error, the call is stopped with that value, whatever the
    retry time and the flag are.  [executeAsync] behaves as [execute]. *)
Theorem tripped_gate :
  forall (cb : t S) (w : World) (action : Action),
    isTripped cb = true ->
    exists e : value,
      test (clock w) cb = Throw e /\
      (forall n, name (self cb) = Normal n ->
         e = VCircuitBreakerError
               (CircuitBreakerBase.trip_message n
                  (clock w - match CircuitBreakerBase.trippedAt (base cb) with
                             | Some t => t
                             | None => clock w
                             end))) /\
      (instanceof_CircuitBreakerError e = true ->
       reached (_nextRetry cb) (clock w) ->
       truthy (_shouldRetry cb) = true ->
         _attemptToProceed (clock w) cb = Normal tt /\
         snd (execute action cb w) = snd (action cb w) /\
         snd (executeAsync action cb w) = snd (action cb w) /\
         (fst (fst (execute action cb w)) = Normal tt <->
          fst (fst (action cb w)) = Normal tt) /\
         (fst (fst (executeAsync action cb w)) = Normal tt <->
          fst (fst (action cb w)) = Normal tt)) /\
      (instanceof_CircuitBreakerError e = true ->
       ~ (reached (_nextRetry cb) (clock w) /\ truthy (_shouldRetry cb) = true) ->
         execute action cb w = (Throw e, cb, w) /\
         executeAsync action cb w = (Throw e, cb, w)) /\
      (instanceof_CircuitBreakerError e = false ->
         execute action cb w = (Throw e, cb, w) /\
         executeAsync action cb w = (Throw e, cb, w)).
Proof.
  intros cb w action Htr.
  destruct (CircuitBreakerBaseFacts.test_tripped (name (self cb)) (clock w) (base cb) Htr)
    as (e & Ht & Hmsg & _).
  exists e. split; [exact Ht|]. split; [exact Hmsg|].
  pose proof (gate_after_throw cb (clock w) e Ht) as Hg.
  split; [|split].
  - intros Hi Htime Hflag.
    assert (Hpass : _attemptToProceed (clock w) cb = Normal tt).
    { apply Date_reached_spec in Htime. rewrite Hg, Hi, Hflag, Htime. reflexivity. }
    split; [exact Hpass|].
    change (executeAsync action cb w) with (execute action cb w).
    destruct (execute_passed action cb w Hpass) as [Hworld Hdone].
    repeat split; try exact Hworld; apply Hdone.
  - intros Hi Hnot.
    assert (Hstop : _attemptToProceed (clock w) cb = Throw e).
    { rewrite Hg, Hi.
      destruct (Date_reached (_nextRetry cb) (clock w)) eqn:Htime; [|reflexivity].
      destruct (truthy (_shouldRetry cb)) eqn:Hflag; [|reflexivity].
      exfalso. apply Hnot. split; [|reflexivity].
      apply Date_reached_spec. exact Htime. }
    change (executeAsync action cb w) with (execute action cb w).
    split; apply (execute_stopped action cb w e Hstop).
  - intros Hi.
    assert (Hstop : _attemptToProceed (clock w) cb = Throw e).
    { rewrite Hg, Hi. reflexivity. }
    change (executeAsync action cb w) with (execute action cb w).
    split; apply (execute_stopped action cb w e Hstop).
Qed.

(** State left by the [catch] block when the strategy answers false. *)
Lemma on_failure_kept (cb : t S) (e : value) (now : Z) (s1 : S) :
  shouldTrip e now (self cb) = (Normal false, s1) ->
  on_failure e now cb =
    (e, {| base := base cb; _nextRetry := _nextRetry cb;
           _shouldRetry := _shouldRetry cb; self := s1 |}).
Proof. intros Hd. unfold on_failure. rewrite Hd. reflexivity. Qed.

(** State left by the [catch] block when the strategy answers true and
    the retry interval getter returns. *)
Lemma on_failure_tripped (cb : t S) (e : value) (now : Z) (s1 : S) (interval : float) :
  shouldTrip e now (self cb) = (Normal true, s1) ->
  retryInterval s1 = Normal interval ->
  on_failure e now cb =
    (e, {| base := snd (CircuitBreakerBase.trip now (base cb));
           _nextRetry := Date_after now interval;
           _shouldRetry := _shouldRetry cb;
           self := s1 |}).
Proof.
  intros Hd Hi. unfold on_failure, trip. rewrite Hd. cbn [self]. rewrite Hi. simpl.
  destruct (CircuitBreakerBase.trip now (base cb)); reflexivity.
Qed.

(** When the retry interval getter throws, its error replaces the one of
    the action and the breaker is not tripped. *)
Lemma on_failure_interval_thrown (cb : t S) (e e' : value) (now : Z) (s1 : S) :
  shouldTrip e now (self cb) = (Normal true, s1) ->
  retryInterval s1 = Throw e' ->
  on_failure e now cb =
    (e', {| base := base cb; _nextRetry := _nextRetry cb;
            _shouldRetry := _shouldRetry cb; self := s1 |}).
Proof.
  intros Hd Hi. unfold on_failure. rewrite Hd. cbn [self]. rewrite Hi. reflexivity.
Qed.

(** When [shouldTrip] itself throws, its error replaces the one of the
    action; the flag is set all the same. *)
Lemma on_failure_thrown (cb : t S) (e e' : value) (now : Z) (s1 : S) :
  shouldTrip e now (self cb) = (Throw e', s1) ->
  on_failure e now cb =
    (e', {| base := base cb; _nextRetry := _nextRetry cb;
            _shouldRetry := _shouldRetry cb; self := s1 |}).
Proof. intros Hd. unfold on_failure. rewrite Hd. reflexivity. Qed.

(** C4, as the code has it.  When the action of a call throws [e] and
    [shouldTrip] answers without throwing: if the answer is false, the
    call throws [e] itself and retry time and breaker state stay as the
    action left them.  If the answer is true and the [retryInterval]
    getter returns, the call throws [e] itself, the retry time is
    [new Date(now + retryInterval)], that is the sum with its fraction cut
    off, or an Invalid Date when the sum is no number or out of range, and
    the breaker is tripped.  If the answer is true and the getter throws,
    the call throws the error of the getter and the breaker is not tripped.
    In every case [_shouldRetry] is set.  [executeAsync] behaves as
    [execute]. *)
Theorem action_error_rethrown :
  forall (cb cb0 : t S) (w w1 : World) (action : Action) (e : value)
         (b : bool) (s1 : S),
    _attemptToProceed (clock w) cb = Normal tt ->
    action cb w = (Throw e, cb0, w1) ->
    shouldTrip e (clock w1) (self cb0) = (Normal b, s1) ->
    let kept := {| base := base cb0; _nextRetry := _nextRetry cb0;
                   _shouldRetry := Some true; self := s1 |} in
    (b = false ->
       execute action cb w = (Throw e, kept, w1) /\
       executeAsync action cb w = (Throw e, kept, w1)) /\
    (b = true ->
       forall interval : float,
         retryInterval s1 = Normal interval ->
         exists cb' : t S,
           execute action cb w = (Throw e, cb', w1) /\
           executeAsync action cb w = (Throw e, cb', w1) /\
           _nextRetry cb' = TimeClip (PrimFloat.add (number_of_time (clock w1)) interval) /\
           isTripped cb' = true /\
           (isTripped cb0 = false ->
              CircuitBreakerBase.trippedAt (base cb') = Some (clock w1)) /\
           _shouldRetry cb' = Some true /\
           self cb' = s1) /\
    (b = true ->
       forall e' : value,
         retryInterval s1 = Throw e' ->
         execute action cb w = (Throw e', kept, w1) /\
         executeAsync action cb w = (Throw e', kept, w1)).
Proof.
  intros cb cb0 w w1 action e b s1 Hgate Hact Hdec kept.
  change (executeAsync action cb w) with (execute action cb w).
  unfold execute. rewrite Hgate, Hact.
  split; [|split].
  - intros ->. rewrite (on_failure_kept cb0 e (clock w1) s1 Hdec). split; reflexivity.
  - intros -> interval Hint.
    rewrite (on_failure_tripped cb0 e (clock w1) s1 interval Hdec Hint).
    eexists. split; [reflexivity|]. split; [reflexivity|].
    unfold set_shouldRetry, isTripped; cbn [base _nextRetry _shouldRetry self].
    repeat split.
    + apply CircuitBreakerBaseFacts.trip_tripped.
    + intros Hclosed. unfold CircuitBreakerBase.trip.
      unfold CircuitBreakerBase.isTripped in Hclosed. rewrite Hclosed. reflexivity.
  - intros -> e' Hint.
    rewrite (on_failure_interval_thrown cb0 e e' (clock w1) s1 Hdec Hint).
    split; reflexivity.
Qed.

(** What [reset()] of the wrapper does: the retry time goes back to year
    one, the breaker is untripped, and [_shouldRetry] is not written. *)
Lemma reset_fields (cb : t S) :
  _nextRetry (snd (reset cb)) = Some year_one /\
  isTripped (snd (reset cb)) = false /\
  _shouldRetry (snd (reset cb)) = _shouldRetry cb /\
  self (snd (reset cb)) = self cb /\
  fst (reset cb) = isTripped cb.
Proof.
  unfold reset, isTripped.
  pose proof (CircuitBreakerBaseFacts.reset_untripped (base cb)) as Hu.
  pose proof (CircuitBreakerBaseFacts.reset_result (base cb)) as Hr.
  destruct (CircuitBreakerBase.reset (base cb)) as [r b]; simpl in *.
  auto.
Qed.

(** C2, as the code has it.  After [reset()] the retry time is year one
    and the breaker is untripped, but [_shouldRetry] keeps its value:
    nothing ever clears it.  After a call that ran to the end without a
    throw the same holds, and the flag is set.  A call that passes the
    gate and whose action returns does run to the end: it returns, with
    the breaker reset from what the action left. *)
Theorem reset_restores_retry_time_only :
  forall (cb : t S),
    (_nextRetry (snd (reset cb)) = Some year_one /\
     isTripped (snd (reset cb)) = false /\
     _shouldRetry (snd (reset cb)) = _shouldRetry cb) /\
    (forall (action : Action) (w w' : World) (cb' : t S),
       execute action cb w = (Normal tt, cb', w') ->
       _nextRetry cb' = Some year_one /\
       isTripped cb' = false /\
       _shouldRetry cb' = Some true) /\
    (forall (action : AsyncAction) (w w' : World) (cb' : t S),
       executeAsync action cb w = (Normal tt, cb', w') ->
       _nextRetry cb' = Some year_one /\
       isTripped cb' = false /\
       _shouldRetry cb' = Some true) /\
    (forall (action : Action) (w w1 : World) (cb0 : t S),
       _attemptToProceed (clock w) cb = Normal tt ->
       action cb w = (Normal tt, cb0, w1) ->
       execute action cb w = (Normal tt, snd (reset (set_shouldRetry cb0)), w1) /\
       executeAsync action cb w = (Normal tt, snd (reset (set_shouldRetry cb0)), w1)).
Proof.
  intros cb.
  assert (Hexec : forall (action : Action) (w w' : World) (cb' : t S),
             execute action cb w = (Normal tt, cb', w') ->
             _nextRetry cb' = Some year_one /\ isTripped cb' = false /\
             _shouldRetry cb' = Some true).
  { intros action w w' cb' Hex. unfold execute in Hex.
    destruct (_attemptToProceed (clock w) cb); [|discriminate].
    destruct (action cb w) as [[[[]|e] cb0] w1].
    - inversion Hex; subst.
      destruct (reset_fields (set_shouldRetry cb0)) as (Hn & Hu & Hs & _).
      repeat split; assumption.
    - destruct (on_failure e (clock w1) cb0); discriminate. }
  destruct (reset_fields cb) as (Hn & Hu & Hs & _).
  split; [repeat split; assumption|].
  split; [intros action w w' cb' Hex; apply (Hexec action w w' cb' Hex)|].
  split; [intros action w w' cb' Hex; apply (Hexec action w w' cb' Hex)|].
  intros action w w1 cb0 Hgate Hact.
  change (executeAsync action cb w) with (execute action cb w).
  unfold execute. rewrite Hgate, Hact. split; reflexivity.
Qed.

(** The flag is never cleared: once set, it is set after every call and
    every [reset()]. *)
Lemma shouldRetry_sticky (action : Action) (cb : t S) (w : World) :
  _shouldRetry cb = Some true ->
  _shouldRetry (snd (reset cb)) = Some true /\
  (_shouldRetry (snd (fst (action cb w))) = Some true ->
   _shouldRetry (snd (fst (execute action cb w))) = Some true).
Proof.
  intros Hset. split.
  - destruct (reset_fields cb) as (_ & _ & Hs & _). rewrite Hs. exact Hset.
  - unfold execute.
    destruct (_attemptToProceed (clock w) cb); [|intros _; exact Hset].
    destruct (action cb w) as [[[[]|e] cb0] w1]; cbn [fst snd]; intros Hkept.
    + destruct (reset_fields (set_shouldRetry cb0)) as (_ & _ & Hs & _).
      rewrite Hs. reflexivity.
    + destruct (on_failure e (clock w1) cb0). reflexivity.
Qed.

End Wrapper.

(** The sample breaker after one call that succeeded. *)
Lemma sample_after_success :
  execute Samples.succeed Samples.breaker (Samples.at_ Samples.t0) =
    (Normal tt,
     {| base := CircuitBreakerBase.create;
        _nextRetry := Some year_one;
        _shouldRetry := Some true;
        self := self Samples.breaker |},
     {| clock := Samples.t0 + 10; effects := ["ok"] |}).
Proof. reflexivity. Qed.

(** C2 as stated fails: after a call that succeeded, and after an explicit
    [reset()] that follows it, [_shouldRetry] is true, not false. *)
Lemma reset_flag_counterexample :
  let after_success :=
    snd (fst (execute Samples.succeed Samples.breaker (Samples.at_ Samples.t0))) in
  let after_reset := snd (reset after_success) in
  ~ (_nextRetry after_success = Some year_one /\
     truthy (_shouldRetry after_success) = false /\
     isTripped after_success = false) /\
  ~ (_nextRetry after_reset = Some year_one /\
     truthy (_shouldRetry after_reset) = false /\
     isTripped after_reset = false).
Proof.
  split; intros (_ & Hflag & _); vm_compute in Hflag; discriminate.
Qed.

Lemma reset_restores_retry_time_only_witness :
  _nextRetry (snd (fst (execute Samples.succeed Samples.breaker (Samples.at_ Samples.t0))))
    = Some year_one /\
  _shouldRetry (snd (fst (execute Samples.succeed Samples.breaker (Samples.at_ Samples.t0))))
    = Some true.
Proof.
  destruct (reset_restores_retry_time_only Samples.breaker) as (_ & Hexec & _).
  destruct (Hexec Samples.succeed (Samples.at_ Samples.t0) _ _ sample_after_success)
    as (Hn & _ & Hs).
  rewrite sample_after_success. split; [exact Hn | exact Hs].
Defined.

(** The sample breaker after one call that failed: tripped at the time the
    action ended, next retry five seconds later. *)
Lemma sample_after_failure :
  execute Samples.fail Samples.breaker (Samples.at_ Samples.t0) =
    (Throw (VOther "TestError"),
     {| base := {| CircuitBreakerBase._isTripped := true;
                   CircuitBreakerBase.trippedAt := Some (Samples.t0 + 10) |};
        _nextRetry := Some (Samples.t0 + 5010);
        _shouldRetry := Some true;
        self := self Samples.breaker |},
     {| clock := Samples.t0 + 10; effects := ["failed"] |}).
Proof. vm_compute. reflexivity. Qed.

Lemma tripped_gate_witness :
  let tripped :=
    snd (fst (execute Samples.fail Samples.breaker (Samples.at_ Samples.t0))) in
  (* 20 ms after the failure the next call is stopped *)
  execute Samples.succeed tripped (Samples.at_ (Samples.t0 + 30)) =
    (Throw (VCircuitBreakerError "'db' has been tripped for 0.02 seconds."),
     tripped, Samples.at_ (Samples.t0 + 30)) /\
  (* 6 s after the failure the next call runs the action *)
  snd (execute Samples.succeed tripped (Samples.at_ (Samples.t0 + 6010))) =
    snd (Samples.succeed tripped (Samples.at_ (Samples.t0 + 6010))).
Proof.
  intros tripped. split.
  - destruct (tripped_gate tripped (Samples.at_ (Samples.t0 + 30)) Samples.succeed
                eq_refl) as (e & _ & Hmsg & _ & Hstop & _).
    pose proof (Hmsg "db" eq_refl) as He. vm_compute in He. subst e.
    apply Hstop; [reflexivity|].
    intros [Hle _]. vm_compute in Hle. apply Hle. reflexivity.
  - destruct (tripped_gate tripped (Samples.at_ (Samples.t0 + 6010)) Samples.succeed
                eq_refl) as (e & _ & Hmsg & Hprobe & _).
    pose proof (Hmsg "db" eq_refl) as He. vm_compute in He. subst e.
    apply Hprobe; [reflexivity | | reflexivity].
    vm_compute. discriminate.
Defined.

(** The scenario of the specification: retry interval 5000; after one
    failing call a second call at once throws the trip error; once the
    retry time has passed a call goes through, and as it succeeds the
    breaker is closed again. *)
Example open_then_probe :
  let tripped :=
    snd (fst (execute Samples.fail Samples.breaker (Samples.at_ Samples.t0))) in
  let probed :=
    execute Samples.succeed tripped (Samples.at_ (Samples.t0 + 6010)) in
  fst (fst (execute Samples.fail tripped (Samples.at_ (Samples.t0 + 11))))
    = Throw (VCircuitBreakerError "'db' has been tripped for 0.001 seconds.") /\
  fst (fst probed) = Normal tt /\
  isTripped (snd (fst probed)) = false /\
  effects (snd probed) = ["ok"].
Proof. vm_compute. repeat split. Qed.

(** A breaker whose [name] getter throws stops every call with the value
    thrown by the getter once it is tripped, even after the retry time. *)
Example faulty_name_propagates :
  let tripped :=
    snd (fst (execute Samples.fail Samples.faulty_breaker (Samples.at_ Samples.t0))) in
  isTripped tripped = true /\
  execute Samples.succeed tripped (Samples.at_ (Samples.t0 + 6010)) =
    (Throw (VOther "TestError"), tripped, Samples.at_ (Samples.t0 + 6010)).
Proof. vm_compute. split; reflexivity. Qed.

(** A windowed breaker given [throw undefined]: [shouldTrip] throws, and
    its error, not the one of the action, leaves [execute]. *)
Example shouldTrip_error_replaces :
  fst (fst (execute (fun cb w => (Throw VUndefined, cb, w))
              (create Samples.windowed) (Samples.at_ Samples.t0)))
    = Throw (VError "error cannot be null or undefined.").
Proof. reflexivity. Qed.

(** What [new Date] makes of the sums the code hands it. *)
Example Date_after_examples :
  Date_after Samples.t0 5000 = Some (Samples.t0 + 5000) /\
  Date_after Samples.t0 0.75 = Some Samples.t0 /\
  Date_after Samples.t0 (-0.75) = Some (Samples.t0 - 1) /\
  Date_after Samples.t0 1e16 = None /\
  Date_after Samples.t0 (-1e16) = None /\
  Date_after Samples.t0 nan = None /\
  Date_after Samples.t0 infinity = None /\
  Date_after year_one 0 = Some year_one.
Proof. vm_compute. repeat split. Qed.

(** C4 as stated fails.  With a retry interval calculator that throws, the
    call does not throw the error of the action but that of the
    calculator, and the breaker is not tripped though [shouldTrip]
    answered true.  With a retry interval of 1e16 ms the retry time is not
    the failure time plus the interval but an Invalid Date. *)
Lemma action_error_replaced_counterexample :
  let e := VOther "TestError" in
  let broken := Samples.breaker_with (fun _ => Throw (VError "no interval")) in
  let huge := Samples.breaker_with (fun _ => Normal 1e16%float) in
  let w := Samples.at_ Samples.t0 in
  (_attemptToProceed (clock w) broken = Normal tt /\
   fst (Samples.fail broken w) = (Throw e, broken) /\
   shouldTrip e (Samples.t0 + 10) (self broken) = (Normal true, self broken) /\
   ~ (fst (fst (execute Samples.fail broken w)) = Throw e) /\
   ~ (isTripped (snd (fst (execute Samples.fail broken w))) = true)) /\
  (fst (fst (execute Samples.fail huge w)) = Throw e /\
   isTripped (snd (fst (execute Samples.fail huge w))) = true /\
   ~ (_nextRetry (snd (fst (execute Samples.fail huge w)))
        = Some (Samples.t0 + 10 + 10000000000000000)) /\
   _nextRetry (snd (fst (execute Samples.fail huge w))) = None).
Proof.
  vm_compute. repeat split; discriminate.
Qed.

Lemma action_error_rethrown_witness :
  exists cb',
    execute Samples.fail Samples.breaker (Samples.at_ Samples.t0) =
      (Throw (VOther "TestError"), cb',
       {| clock := Samples.t0 + 10; effects := ["failed"] |}) /\
    _nextRetry cb' = Some (Samples.t0 + 10 + 5000) /\
    isTripped cb' = true.
Proof.
  destruct (action_error_rethrown (H := ExecutionCircuitBreaker.strategy)
              Samples.breaker Samples.breaker (Samples.at_ Samples.t0)
              {| clock := Samples.t0 + 10; effects := ["failed"] |}
              Samples.fail (VOther "TestError") true (self Samples.breaker)
              eq_refl eq_refl eq_refl)
    as (_ & Htrip & _).
  destruct (Htrip eq_refl 5000%float eq_refl) as (cb' & Hex & _ & Hn & Ht & _).
  exists cb'. split; [exact Hex|]. split; [|exact Ht].
  rewrite Hn. vm_compute. reflexivity.
Defined.

End ExecutionFacts.

Module ThresholdFacts.
Import ThresholdExecutionCircuitBreaker.

(** A counted failure, whatever the window holds: the window is renewed
    if its end has passed, its count goes up by one, and the answer is
    whether the count is above the threshold. *)
Lemma shouldTrip_counted (s : fields) (error : value) (now : Z) :
  is_nullish error = false -> _failureDetector s error = Normal true ->
  let s1 := if now >? _errorCountIntervalEnd s then _resetErrorCount now s else s in
  let count := increment (_errorCount s1) in
  shouldTrip error now s =
    (Normal (gt count (_errorCountGetter s tt)),
     with_window s1 (Some count) (_errorCountIntervalEnd s1)).
Proof.
  intros Hn Hd s1 count. unfold shouldTrip. rewrite Hn, Hd. fold s1.
  cbn [_errorCount with_window ToNumber]. fold count.
  replace (_errorCountGetter
             (with_window s1 (Some count) (_errorCountIntervalEnd s1)) tt)
    with (_errorCountGetter s tt)
    by (unfold s1; destruct (now >? _errorCountIntervalEnd s); reflexivity).
  destruct (gt count (_errorCountGetter s tt)); reflexivity.
Qed.

(** A counted failure after the end of the window opens a new one. *)
Lemma shouldTrip_expired (s : fields) (error : value) (now : Z) :
  is_nullish error = false -> _failureDetector s error = Normal true ->
  now > _errorCountIntervalEnd s ->
  shouldTrip error now s =
    (Normal (1 >? _errorCountGetter s tt),
     with_window s (Some (Int 1)) (now + _errorIntervalGetter s tt)).
Proof.
  intros Hn Hd Hlate. unfold shouldTrip. rewrite Hn, Hd.
  replace (now >? _errorCountIntervalEnd s) with true
    by (symmetry; apply Z.gtb_lt; lia).
  unfold _resetErrorCount, with_window. cbn -[Z.gtb].
  destruct (1 >? _errorCountGetter s tt); reflexivity.
Qed.

(** A counted failure inside the window adds one to its count. *)
Lemma shouldTrip_running (s : fields) (error : value) (now c : Z) :
  is_nullish error = false -> _failureDetector s error = Normal true ->
  now <= _errorCountIntervalEnd s ->
  _errorCount s = Some (Int c) ->
  shouldTrip error now s =
    (Normal (c + 1 >? _errorCountGetter s tt),
     with_window s (Some (Int (c + 1))) (_errorCountIntervalEnd s)).
Proof.
  intros Hn Hd Hin Hc. unfold shouldTrip. rewrite Hn, Hd.
  replace (now >? _errorCountIntervalEnd s) with false
    by (symmetry; rewrite Z.gtb_ltb; apply Z.ltb_ge; lia).
  rewrite Hc. unfold with_window. cbn -[Z.gtb Z.add].
  destruct (c + 1 >? _errorCountGetter s tt); reflexivity.
Qed.

(** C5. [shouldTrip(error)] of the windowed breaker throws the error
    ["error cannot be null or undefined."] when [error] is [undefined] or
    [null].  An error that the failure detector does not count gives false
    and leaves the window as it is.  An error that counts starts a new
    window when the time is past the end of the current one (count 0, end
    at now plus the interval), then adds one to the count; the answer is
    whether the count is above the threshold.  On a new breaker with
    threshold 1, the first failure gives false and a second one within the
    window gives true. *)
Theorem shouldTrip_window :
  forall (s : fields) (error : value) (now : Z),
    (is_nullish error = true ->
       shouldTrip error now s =
         (Throw (VError "error cannot be null or undefined."), s)) /\
    (is_nullish error = false -> _failureDetector s error = Normal false ->
       shouldTrip error now s = (Normal false, s)) /\
    (is_nullish error = false -> _failureDetector s error = Normal true ->
       (* in every state of the window *)
       (let s1 :=
          if now >? _errorCountIntervalEnd s then _resetErrorCount now s else s in
        let count := increment (_errorCount s1) in
        shouldTrip error now s =
          (Normal (gt count (_errorCountGetter s tt)),
           with_window s1 (Some count) (_errorCountIntervalEnd s1))) /\
       (* the window has ended: the failure is the first of a new window *)
       (now > _errorCountIntervalEnd s ->
          shouldTrip error now s =
            (Normal (1 >? _errorCountGetter s tt),
             with_window s (Some (Int 1)) (now + _errorIntervalGetter s tt))) /\
       (* the window is running and holds [c] failures *)
       (forall c : Z,
          now <= _errorCountIntervalEnd s ->
          _errorCount s = Some (Int c) ->
          shouldTrip error now s =
            (Normal (c + 1 >? _errorCountGetter s tt),
             with_window s (Some (Int (c + 1))) (_errorCountIntervalEnd s)))) /\
    (forall e' : value,
       is_nullish error = false -> _failureDetector s error = Throw e' ->
       shouldTrip error now s = (Throw e', s)) /\
    (forall (name : string) (detector : ExecutionCircuitBreaker.FailureDetector)
            (retry : ExecutionCircuitBreaker.RetryIntervalCalculator)
            (interval : Z) (e1 e2 : value) (now1 now2 : Z),
       let fresh := initial name detector retry (fun _ => 1) (fun _ => interval) in
       is_nullish e1 = false -> detector e1 = Normal true ->
       is_nullish e2 = false -> detector e2 = Normal true ->
       year_one < now1 -> now2 <= now1 + interval ->
       fst (shouldTrip e1 now1 fresh) = Normal false /\
       fst (shouldTrip e2 now2 (snd (shouldTrip e1 now1 fresh))) = Normal true).
Proof.
  intros s error now.
  split; [unfold shouldTrip; intros ->; reflexivity|].
  split; [unfold shouldTrip; intros -> ->; reflexivity|].
  split; [|split].
  - intros Hn Hd. split; [|split].
    + apply shouldTrip_counted; assumption.
    + apply shouldTrip_expired; assumption.
    + intros c. apply shouldTrip_running; assumption.
  - intros e' Hn Hd. unfold shouldTrip. rewrite Hn, Hd. reflexivity.
  - intros name detector retry interval e1 e2 now1 now2 fresh
      Hn1 Hd1 Hn2 Hd2 Hpast Hwithin.
    rewrite (shouldTrip_expired fresh e1 now1 Hn1 Hd1)
      by (unfold fresh, initial; simpl; lia).
    split; [reflexivity|]. cbn [snd].
    rewrite (shouldTrip_running _ e2 now2 1 Hn2);
      [reflexivity | exact Hd2 | exact Hwithin | reflexivity].
Qed.

Lemma shouldTrip_window_witness :
  fst (shouldTrip (VOther "TestError") Samples.t0 Samples.windowed) = Normal false /\
  fst (shouldTrip (VOther "TestError") (Samples.t0 + 50)
         (snd (shouldTrip (VOther "TestError") Samples.t0 Samples.windowed)))
    = Normal true /\
  shouldTrip VUndefined Samples.t0 Samples.windowed =
    (Throw (VError "error cannot be null or undefined."), Samples.windowed).
Proof.
  destruct (shouldTrip_window Samples.windowed VUndefined Samples.t0)
    as (Hmissing & _ & _ & _ & Htwice).
  destruct (Htwice "db" (fun _ => Normal true) (fun _ => Normal 5000%float) 60000
              (VOther "TestError") (VOther "TestError") Samples.t0 (Samples.t0 + 50)
              eq_refl eq_refl eq_refl eq_refl) as (H1 & H2).
  - reflexivity.
  - vm_compute. discriminate.
  - split; [exact H1|]. split; [exact H2|]. apply Hmissing. reflexivity.
Defined.

(** On a breaker built by the constructor the count is a number from the
    first counted failure on: the first window always starts then. *)
Lemma first_failure_starts_window (name : string) detector retry threshold interval
  (error : value) (now : Z) :
  let fresh := initial name detector retry threshold interval in
  is_nullish error = false -> detector error = Normal true -> year_one < now ->
  _errorCount (snd (shouldTrip error now fresh)) = Some (Int 1).
Proof.
  intros fresh Hn Hd Hpast.
  rewrite (shouldTrip_expired fresh error now Hn Hd)
    by (unfold fresh, initial; simpl; lia).
  reflexivity.
Qed.

End ThresholdFacts.

Module PolicyFacts.
Import DefaultCircuitBreakerPolicy.

Section Policy.

Variable Context_ : Type.
Implicit Types (p : t Context_) (ctx : Context_) (w : World).

(** The breaker of a policy always has a name, so building its trip error
    never throws. *)
Lemma getTripError_normal (cb : CircuitBreaker.t) (now : Z) :
  CircuitBreaker.getTripError now cb =
    Normal (VCircuitBreakerError
              (CircuitBreakerBase.trip_message (CircuitBreaker._name cb)
                 (now - match CircuitBreakerBase.trippedAt (CircuitBreaker.base cb) with
                        | Some t => t
                        | None => now
                        end))).
Proof. reflexivity. Qed.

(** The constructor leaves the counter and the flag unassigned. *)
Lemma create_fields identifier cfg authority p :
  create (Context_ := Context_) identifier cfg authority = Normal p ->
  _consecutiveFailures p = None /\
  _shouldRetry p = None /\
  _nextRetry p = year_one /\
  CircuitBreaker.isTripped (_circuitBreaker p) = false /\
  cfg = Some (config p) /\
  0 <= Config.failuresAllowedBeforeTrip (config p).
Proof.
  unfold create. intros Hc.
  destruct authority as [a|]; [|discriminate].
  destruct identifier as [[|c i]|]; try discriminate.
  destruct cfg as [cf|]; [|discriminate].
  destruct (Config.failuresAllowedBeforeTrip cf <? 0) eqn:Hneg; [discriminate|].
  inversion Hc; subst; simpl. apply Z.ltb_ge in Hneg. auto 7.
Qed.

(** [tryToTripCircuitBreaker] when the counter holds an integer: the
    counter goes up by one; up to the allowance nothing else happens, above
    it the retry time is set and the breaker tripped. *)
Lemma tryToTrip_counts ctx now p (c : Z) :
  _consecutiveFailures p = Some (Int c) ->
  tryToTripCircuitBreaker ctx now p =
    if c + 1 <=? Config.failuresAllowedBeforeTrip (config p) then
      (false,
       with_state p (_circuitBreaker p) (_shouldRetry p) (Some (Int (c + 1)))
         (_nextRetry p))
    else
      (true,
       with_state p (snd (CircuitBreaker.trip now (_circuitBreaker p)))
         (_shouldRetry p) (Some (Int (c + 1)))
         (now + Config.retryInterval (config p))).
Proof.
  intros Hc. unfold tryToTripCircuitBreaker. rewrite Hc. cbn -[Z.leb Z.add].
  destruct (c + 1 <=? Config.failuresAllowedBeforeTrip (config p)); reflexivity.
Qed.

(** [tryToTripCircuitBreaker] when the counter is still [undefined], or is
    [NaN]: the counter becomes [NaN] and the breaker is tripped, whatever
    the allowance is. *)
Lemma tryToTrip_uncounted ctx now p :
  ToNumber (_consecutiveFailures p) = NaN ->
  tryToTripCircuitBreaker ctx now p =
    (true,
     with_state p (snd (CircuitBreaker.trip now (_circuitBreaker p)))
       (_shouldRetry p) (Some NaN)
       (now + Config.retryInterval (config p))).
Proof.
  intros Hc. unfold tryToTripCircuitBreaker, increment. rewrite Hc. reflexivity.
Qed.

Lemma breaker_trip_tripped (cb : CircuitBreaker.t) (now : Z) :
  CircuitBreaker.isTripped (snd (CircuitBreaker.trip now cb)) = true.
Proof.
  unfold CircuitBreaker.isTripped, CircuitBreaker.trip.
  pose proof (CircuitBreakerBaseFacts.trip_tripped now (CircuitBreaker.base cb)) as Ht.
  destruct (CircuitBreakerBase.trip now (CircuitBreaker.base cb)); exact Ht.
Qed.

Lemma breaker_reset_untripped (cb : CircuitBreaker.t) :
  CircuitBreaker.isTripped (snd (CircuitBreaker.reset cb)) = false.
Proof.
  unfold CircuitBreaker.isTripped, CircuitBreaker.reset.
  pose proof (CircuitBreakerBaseFacts.reset_untripped (CircuitBreaker.base cb)) as Ht.
  destruct (CircuitBreakerBase.reset (CircuitBreaker.base cb)); exact Ht.
Qed.

(** A notification that is no reason for a trip closes the breaker and
    puts the counter at 0. *)
Lemma notify_success ctx error p w :
  _tripReasonAuthority p ctx error = false ->
  let p' := fst (notifyRequestFinished ctx error p w) in
  _consecutiveFailures p' = Some (Int 0) /\
  CircuitBreaker.isTripped (_circuitBreaker p') = false /\
  _shouldRetry p' = Some false /\
  config p' = config p /\
  _tripReasonAuthority p' = _tripReasonAuthority p.
Proof.
  intros Ha. unfold notifyRequestFinished. rewrite Ha. simpl.
  repeat split. apply breaker_reset_untripped.
Qed.

(** A notification that is a reason for a trip, with the counter at [c]:
    the counter is [c + 1], and the breaker is tripped if it was, or if
    [c + 1] is above the allowance. *)
Lemma notify_failure ctx error p w (c : Z) :
  _tripReasonAuthority p ctx error = true ->
  _consecutiveFailures p = Some (Int c) ->
  let p' := fst (notifyRequestFinished ctx error p w) in
  _consecutiveFailures p' = Some (Int (c + 1)) /\
  CircuitBreaker.isTripped (_circuitBreaker p') =
    CircuitBreaker.isTripped (_circuitBreaker p)
    || (c + 1 >? Config.failuresAllowedBeforeTrip (config p)) /\
  config p' = config p /\
  _tripReasonAuthority p' = _tripReasonAuthority p.
Proof.
  intros Ha Hc. unfold notifyRequestFinished. rewrite Ha.
  rewrite (tryToTrip_counts ctx _ p c Hc). rewrite Z.gtb_ltb, Z.ltb_antisym.
  destruct (c + 1 <=? Config.failuresAllowedBeforeTrip (config p)); simpl.
  - repeat split. rewrite orb_false_r. reflexivity.
  - repeat split. rewrite orb_true_r. apply breaker_trip_tripped.
Qed.

(** Once the counter holds an integer [c] (that is, from the first
    successful notification on), a run of [k] failures leaves the counter
    at [c + k], and an untripped breaker is tripped at the end exactly when
    [c + k] is above the allowance. *)
Lemma failures_counted (calls : list (Z * Context_ * value)) :
  forall p w (c : Z),
    all_failures (_tripReasonAuthority p) calls ->
    _consecutiveFailures p = Some (Int c) ->
    let p' := fst (notifyAll calls p w) in
    _consecutiveFailures p' = Some (Int (c + Z.of_nat (length calls))) /\
    CircuitBreaker.isTripped (_circuitBreaker p') =
      CircuitBreaker.isTripped (_circuitBreaker p)
      || (negb (length calls =? 0)%nat
          && (c + Z.of_nat (length calls) >? Config.failuresAllowedBeforeTrip (config p))).
Proof.
  induction calls as [|[[now ctx] error] rest IH]; intros p w c Hall Hc.
  - simpl. rewrite Z.add_0_r, orb_false_r. auto.
  - inversion Hall as [|? ? Hhead Htail]; subst. simpl in Hhead.
    cbn [notifyAll].
    destruct (notifyRequestFinished ctx error p {| clock := now; effects := effects w |})
      as [p1 w1] eqn:Hstep.
    pose proof (notify_failure ctx error p {| clock := now; effects := effects w |} c
                  Hhead Hc) as Hone.
    rewrite Hstep in Hone. cbn [fst] in Hone.
    destruct Hone as (Hc1 & Htr1 & Hcfg & Hauth).
    rewrite <- Hauth in Htail.
    destruct (IH p1 w1 (c + 1) Htail Hc1) as (Hcount & Htrip).
    cbn zeta in *. rewrite Hcount, Htrip, Htr1, Hcfg. split.
    + f_equal. f_equal. cbn [length]. lia.
    + cbn [length]. set (n := Config.failuresAllowedBeforeTrip (config p)).
      replace (c + 1 + Z.of_nat (length rest)) with (c + Z.of_nat (S (length rest))) by lia.
      destruct (CircuitBreaker.isTripped (_circuitBreaker p)); [reflexivity|].
      cbn [orb negb Nat.eqb andb].
      destruct rest as [|r rest']; cbn [length Nat.eqb negb andb].
      * rewrite orb_false_r. reflexivity.
      * destruct (c + 1 >? n) eqn:Hgt; [|reflexivity].
        cbn [orb]. symmetry. apply Z.gtb_lt. apply Z.gtb_lt in Hgt. lia.
Qed.

(** X21. From the last successful notification on the count is right: of
    the failures that follow it in a row, the breaker is tripped after [k]
    of them exactly when [k] is above the allowance. *)
Lemma counted_since_last_success ctx error (calls : list (Z * Context_ * value))
  p w w' :
  _tripReasonAuthority p ctx error = false ->
  all_failures (_tripReasonAuthority p) calls ->
  calls <> [] ->
  let p0 := fst (notifyRequestFinished ctx error p w) in
  CircuitBreaker.isTripped (_circuitBreaker (fst (notifyAll calls p0 w'))) =
    (Z.of_nat (length calls) >? Config.failuresAllowedBeforeTrip (config p)).
Proof.
  intros Hok Hall Hne p0.
  destruct (notify_success ctx error p w Hok) as (Hzero & Hclosed & _ & Hcfg & Hauth).
  fold p0 in Hzero, Hclosed, Hcfg, Hauth.
  rewrite <- Hauth in Hall.
  destruct (failures_counted calls p0 w' 0 Hall Hzero) as (_ & Htrip).
  rewrite Htrip, Hclosed, Hcfg. cbn [orb].
  destruct calls as [|call rest]; [contradiction|]. reflexivity.
Qed.

(** C1, at the input where the code departs from it.  The constructor
    leaves [_consecutiveFailures] unassigned, so the first increment makes
    it [NaN], and [NaN <= failuresAllowedBeforeTrip] is false: the first
    failure reported to a new policy trips the breaker, whatever the
    allowance is, and sets the retry time. *)
Theorem fresh_policy_first_failure_trips :
  forall (identifier : option string) (cfg : option Config.t)
         (authority : option (TripReasonAuthority Context_))
         p ctx (error : value) w,
    create identifier cfg authority = Normal p ->
    _tripReasonAuthority p ctx error = true ->
    let p' := fst (notifyRequestFinished ctx error p w) in
    tryToTripCircuitBreaker ctx (clock w) p =
      (true,
       with_state p (snd (CircuitBreaker.trip (clock w) (_circuitBreaker p)))
         None (Some NaN) (clock w + Config.retryInterval (config p))) /\
    CircuitBreaker.isTripped (_circuitBreaker p') = true /\
    _consecutiveFailures p' = Some NaN /\
    _nextRetry p' = clock w + Config.retryInterval (config p).
Proof.
  intros identifier cfg authority p ctx error w Hnew Hreason.
  destruct (create_fields identifier cfg authority p Hnew)
    as (Hcount & Hflag & _).
  assert (Hcb : onRequestToOpen p = None).
  { unfold create in Hnew.
    destruct authority; [|discriminate].
    destruct identifier as [[|c i]|]; try discriminate.
    destruct cfg as [cf|]; [|discriminate].
    destruct (Config.failuresAllowedBeforeTrip cf <? 0); [discriminate|].
    inversion Hnew; reflexivity. }
  assert (Htry : forall now,
             tryToTripCircuitBreaker ctx now p =
               (true,
                with_state p (snd (CircuitBreaker.trip now (_circuitBreaker p)))
                  None (Some NaN) (now + Config.retryInterval (config p)))).
  { intros now. rewrite tryToTrip_uncounted by (rewrite Hcount; reflexivity).
    rewrite Hflag. reflexivity. }
  split; [apply Htry|].
  unfold notifyRequestFinished. rewrite Hreason, Hcb. cbn [call_optional].
  rewrite Htry. cbn. repeat split. apply breaker_trip_tripped.
Qed.

(** C9, as the code has it.  [throwIfTripped] returns, leaving the world
    as it is, exactly when the breaker of the policy is untripped, or is
    tripped while the retry time has come and [_shouldRetry] is not set.
    In every other case the [onTerminatingRequest] callback, if there is
    one, is run on the world first: if there is none or it returns, the
    trip error of the breaker is thrown; if it throws, what it throws
    leaves [throwIfTripped] in place of the trip error. *)
Theorem throwIfTripped_gate :
  forall ctx p w,
    let tripped := CircuitBreaker.isTripped (_circuitBreaker p) in
    let passes :=
      tripped = false \/
      (tripped = true /\ _nextRetry p <= clock w /\ truthy (_shouldRetry p) = false) in
    (passes -> throwIfTripped ctx p w = (Normal tt, w)) /\
    (~ passes ->
       exists err : value,
         CircuitBreaker.getTripError (clock w) (_circuitBreaker p) = Normal err /\
         instanceof_CircuitBreakerError err = true /\
         (onTerminatingRequest p = None ->
            throwIfTripped ctx p w = (Throw err, w)) /\
         (forall hook w1,
            onTerminatingRequest p = Some hook -> hook w = (Normal tt, w1) ->
            throwIfTripped ctx p w = (Throw err, w1)) /\
         (forall hook e w1,
            onTerminatingRequest p = Some hook -> hook w = (Throw e, w1) ->
            throwIfTripped ctx p w = (Throw e, w1))) /\
    (fst (throwIfTripped ctx p w) = Normal tt <-> passes).
Proof.
  intros ctx p w tripped passes.
  assert (Hdec : passes \/ ~ passes).
  { unfold passes. destruct tripped; [|left; left; reflexivity].
    destruct (Z_le_gt_dec (_nextRetry p) (clock w)) as [Hle|Hgt].
    - destruct (truthy (_shouldRetry p)) eqn:Hflag.
      + right. intros [Hf|(_ & _ & Hf)]; discriminate.
      + left. right. auto.
    - right. intros [Hf|(_ & Hle & _)]; [discriminate | lia]. }
  assert (Hpass : passes -> throwIfTripped ctx p w = (Normal tt, w)).
  { unfold passes, tripped, throwIfTripped, isCircuitBreakerOpen.
    intros [Hu|(Ht & Hle & Hflag)].
    - rewrite Hu. reflexivity.
    - rewrite Ht, Hflag. apply Z.leb_le in Hle. rewrite Hle. reflexivity. }
  assert (Hopen : ~ passes ->
            isCircuitBreakerOpen ctx (clock w) p =
              Normal (true,
                      VCircuitBreakerError
                        (CircuitBreakerBase.trip_message
                           (CircuitBreaker._name (_circuitBreaker p))
                           (clock w -
                            match CircuitBreakerBase.trippedAt
                                    (CircuitBreaker.base (_circuitBreaker p)) with
                            | Some t => t
                            | None => clock w
                            end)))).
  { unfold passes, tripped, isCircuitBreakerOpen. intros Hnot.
    rewrite getTripError_normal.
    destruct (CircuitBreaker.isTripped (_circuitBreaker p)) eqn:Ht;
      [|exfalso; apply Hnot; left; reflexivity].
    cbn [negb].
    destruct ((_nextRetry p <=? clock w) && negb (truthy (_shouldRetry p))) eqn:Hprobe;
      [|reflexivity].
    exfalso. apply Hnot. right. apply andb_prop in Hprobe as [Hle Hflag].
    apply Z.leb_le in Hle. apply negb_true_iff in Hflag. auto. }
  split; [exact Hpass|]. split; [|split].
  - intros Hnot. rewrite getTripError_normal. eexists.
    split; [reflexivity|]. split; [reflexivity|].
    unfold throwIfTripped. rewrite (Hopen Hnot). cbn [negb].
    split; [|split].
    + intros ->. reflexivity.
    + intros hook w1 -> Hrun. rewrite Hrun. reflexivity.
    + intros hook e w1 -> Hrun. rewrite Hrun. reflexivity.
  - intros Hret. destruct Hdec as [Hy|Hn]; [exact Hy|].
    exfalso. unfold throwIfTripped in Hret. rewrite (Hopen Hn) in Hret.
    cbn [negb] in Hret.
    destruct (onTerminatingRequest p) as [hook|]; [|discriminate].
    destruct (hook w) as [[[]|e] w1]; discriminate.
  - intros Hy. rewrite (Hpass Hy). reflexivity.
Qed.

End Policy.

(** The sample policy is what the constructor returns. *)
Lemma sample_policy_constructed (n : Z) :
  0 <= n -> Samples.new_policy n = Normal (Samples.policy n).
Proof.
  intros Hn. unfold Samples.new_policy, create. cbn -[Z.ltb].
  replace (n <? 0) with false by (symmetry; apply Z.ltb_ge; exact Hn).
  reflexivity.
Qed.

Lemma fresh_policy_first_failure_trips_witness :
  Samples.new_policy 1 = Normal (Samples.policy 1) /\
  _consecutiveFailures (Samples.policy 1) = None /\
  CircuitBreaker.isTripped
    (_circuitBreaker
       (fst (notifyRequestFinished tt (VOther "TestError") (Samples.policy 1)
               (Samples.at_ Samples.t0))))
    = true.
Proof.
  split; [reflexivity|]. split; [reflexivity|].
  apply (fresh_policy_first_failure_trips unit
           (Some "db") (Some (Samples.policy_config 1)) (Some Samples.authority)
           (Samples.policy 1) tt (VOther "TestError") (Samples.at_ Samples.t0));
    reflexivity.
Defined.

(** The same policy after one success: now one failure is allowed, and the
    second one in a row trips. *)
Example policy_counts_after_success :
  let p := Samples.policy 1 in
  let ok := (Samples.t0, tt, VUndefined) in
  let ko := (Samples.t0, tt, VOther "TestError") in
  CircuitBreaker.isTripped (_circuitBreaker (fst (notifyAll [ok; ko] p (Samples.at_ 0))))
    = false /\
  CircuitBreaker.isTripped (_circuitBreaker (fst (notifyAll [ok; ko; ko] p (Samples.at_ 0))))
    = true /\
  CircuitBreaker.isTripped (_circuitBreaker (fst (notifyAll [ko] p (Samples.at_ 0))))
    = true.
Proof. repeat split. Qed.

(** The scenario of the specification: with no failure allowed, one bad
    outcome opens the breaker, so that [throwIfTripped] throws, and a
    good outcome after it puts the counter at 0 and closes the breaker. *)
Example policy_opens_and_closes :
  let opened :=
    fst (notifyRequestFinished tt (VOther "TestError") (Samples.policy 0)
           (Samples.at_ Samples.t0)) in
  let closed :=
    fst (notifyRequestFinished tt VUndefined opened (Samples.at_ (Samples.t0 + 20))) in
  fst (throwIfTripped tt opened (Samples.at_ (Samples.t0 + 10)))
    = Throw (VCircuitBreakerError "'db' has been tripped for 0.01 seconds.") /\
  _consecutiveFailures closed = Some (Int 0) /\
  fst (throwIfTripped tt closed (Samples.at_ (Samples.t0 + 30))) = Normal tt.
Proof. repeat split. Qed.

(** C9 as stated fails.  A policy is tripped and asked 100 ms later, well
    before its retry time; its [onTerminatingRequest] callback throws.
    What leaves [throwIfTripped] is the value thrown by the callback, not
    the trip error of the breaker. *)
Lemma terminating_hook_counterexample :
  let observed :=
    set_onTerminatingRequest (Some (Samples.mark_and_throw "hook failed"))
      (Samples.policy 0) in
  let tripped :=
    fst (notifyRequestFinished tt (VOther "TestError") observed (Samples.at_ Samples.t0)) in
  let w := Samples.at_ (Samples.t0 + 100) in
  let err := VCircuitBreakerError "'db' has been tripped for 0.1 seconds." in
  CircuitBreaker.isTripped (_circuitBreaker tripped) = true /\
  ~ (_nextRetry tripped <= clock w) /\
  CircuitBreaker.getTripError (clock w) (_circuitBreaker tripped) = Normal err /\
  ~ (fst (throwIfTripped tt tripped w) = Throw err) /\
  throwIfTripped tt tripped w =
    (Throw (VOther "hook failed"),
     {| clock := Samples.t0 + 100; effects := ["hook failed"] |}).
Proof.
  vm_compute. repeat split; try discriminate.
  intros Hle. apply Hle. reflexivity.
Qed.

Lemma throwIfTripped_gate_witness :
  let observed :=
    set_onTerminatingRequest (Some (Samples.mark "terminating")) (Samples.policy 0) in
  let tripped :=
    fst (notifyRequestFinished tt (VOther "TestError") observed (Samples.at_ Samples.t0)) in
  throwIfTripped tt observed (Samples.at_ Samples.t0) = (Normal tt, Samples.at_ Samples.t0) /\
  throwIfTripped tt tripped (Samples.at_ (Samples.t0 + 100)) =
    (Throw (VCircuitBreakerError "'db' has been tripped for 0.1 seconds."),
     {| clock := Samples.t0 + 100; effects := ["terminating"] |}) /\
  throwIfTripped tt tripped (Samples.at_ (Samples.t0 + 250)) =
    (Normal tt, Samples.at_ (Samples.t0 + 250)).
Proof.
  intros observed tripped.
  split; [|split].
  - destruct (throwIfTripped_gate unit tt observed (Samples.at_ Samples.t0))
      as (Hpass & _).
    apply Hpass. left. reflexivity.
  - destruct (throwIfTripped_gate unit tt tripped (Samples.at_ (Samples.t0 + 100)))
      as (_ & Hstop & _).
    destruct Hstop as (err & Herr & _ & _ & Hhook & _).
    + intros [Hu|(_ & Hle & _)]; [discriminate|].
      vm_compute in Hle. apply Hle. reflexivity.
    + vm_compute in Herr. inversion Herr; subst err.
      apply (Hhook (Samples.mark "terminating")); reflexivity.
  - destruct (throwIfTripped_gate unit tt tripped (Samples.at_ (Samples.t0 + 250)))
      as (Hpass & _).
    apply Hpass.
    right. split; [reflexivity|]. split; [|reflexivity].
    vm_compute. discriminate.
Defined.

End PolicyFacts.

Module BackoffFacts.
Import ExponentialBackoff.
Local Open Scope float_scope.

Example Math_min_smaller : Math_min 1600 1000 = 1000 /\ Math_min 800 1000 = 800.
Proof. split; reflexivity. Qed.

Example Math_min_nan : Math_min nan 1000 = nan /\ Math_min 800 nan = nan.
Proof. split; reflexivity. Qed.

Example Math_min_zeros : Math_min 0 (-0) = (-0) /\ Math_min (-0) 0 = (-0).
Proof. split; reflexivity. Qed.

(** Two facts of IEEE arithmetic, from the specification of the
    primitive operations. *)
Lemma SFcompare_antisym (x y : spec_float) :
  SFcompare y x = option_map CompOpp (SFcompare x y).
Proof.
  assert (Hpos : forall p q : positive,
             Pos.compare_cont Eq q p = CompOpp (Pos.compare_cont Eq p q)).
  { intros p q. exact (eq_sym (Pos.compare_cont_antisym p q Eq)). }
  destruct x as [sx|sx| |sx mx ex], y as [sy|sy| |sy my ey]; simpl;
    try reflexivity;
    try (destruct sx; reflexivity); try (destruct sy; reflexivity);
    try (destruct sx, sy; reflexivity).
  destruct sx, sy; simpl; try reflexivity;
    rewrite (Z.compare_antisym ey ex);
    destruct (ey ?= ex)%Z eqn:E; simpl; try reflexivity;
    do 2 f_equal; apply Hpos.
Qed.

Lemma leb_true_ltb_false (x y : float) :
  (x <=? y) = true -> (y <? x) = false.
Proof.
  rewrite leb_spec, ltb_spec. unfold SFleb, SFltb.
  rewrite (SFcompare_antisym (Prim2SF x) (Prim2SF y)).
  destruct (SFcompare (Prim2SF x) (Prim2SF y)) as [[]|]; simpl; congruence.
Qed.

Lemma SFmul_comm (prec emax : Z) (x y : spec_float) :
  SFmul prec emax x y = SFmul prec emax y x.
Proof.
  destruct x as [sx|sx| |sx mx ex], y as [sy|sy| |sy my ey]; simpl;
    try reflexivity; try (rewrite xorb_comm; reflexivity).
  rewrite xorb_comm, Pos.mul_comm, Z.add_comm. reflexivity.
Qed.

Lemma mul_comm (x y : float) : x * y = y * x.
Proof.
  apply Prim2SF_inj. rewrite !mul_spec. apply SFmul_comm.
Qed.

Section Host.

Variable Math_pow : float -> float -> float.
Variable RandomSource : Type.
Variable Math_random : RandomSource -> float * RandomSource.

(** The call when the check of [maxAttempts] passes: one number is drawn
    and the delay, as the specification words it, is returned. *)
Lemma calculateBackoff_accepted attempt maxAttempts baseDelay maxDelay jitter g :
  (maxAttempts <? 0) = false -> (ceilingForMaxAttempts <? maxAttempts) = false ->
  calculateBackoff Math_pow Math_random attempt maxAttempts baseDelay maxDelay jitter g =
    (Normal (jittered jitter
               (base_delay Math_pow (clamped_attempt attempt maxAttempts)
                  baseDelay maxDelay)
               (fst (Math_random g))),
     snd (Math_random g)).
Proof.
  intros Hlow Hhigh. unfold calculateBackoff.
  rewrite Hlow, Hhigh. cbn [orb].
  unfold jittered, base_delay, clamped_attempt.
  destruct (Math_random g) as [r g']. cbn [fst snd].
  destruct jitter; try reflexivity.
  rewrite (mul_comm r 0.5). reflexivity.
Qed.

Lemma calculateBackoff_rejected attempt maxAttempts baseDelay maxDelay jitter g :
  (maxAttempts <? 0) = true \/ (ceilingForMaxAttempts <? maxAttempts) = true ->
  calculateBackoff Math_pow Math_random attempt maxAttempts baseDelay maxDelay jitter g =
    (Throw (VError "The max attempts must be between 0 and 10."), g).
Proof.
  intros Hout. unfold calculateBackoff.
  replace ((maxAttempts <? 0) || (ceilingForMaxAttempts <? maxAttempts))%bool with true;
    [reflexivity|].
  symmetry. apply orb_true_iff. exact Hout.
Qed.

(** C7. [calculateBackoff] throws its range error, without drawing a
    number, exactly when [maxAttempts < 0] or [maxAttempts > 10], whatever
    the other arguments are; it does for [maxAttempts] -1 and 11. *)
Theorem calculateBackoff_range_check :
  forall (attempt maxAttempts baseDelay maxDelay : float) (jitter : Jitter.t)
         (g : RandomSource),
    ((maxAttempts <? 0) = true \/ (10 <? maxAttempts) = true ->
       calculateBackoff Math_pow Math_random attempt maxAttempts baseDelay maxDelay jitter g =
         (Throw (VError "The max attempts must be between 0 and 10."), g)) /\
    (forall v : value,
       fst (calculateBackoff Math_pow Math_random attempt maxAttempts baseDelay maxDelay jitter g) = Throw v ->
       (maxAttempts <? 0) = true \/ (10 <? maxAttempts) = true) /\
    calculateBackoff Math_pow Math_random attempt (-1) baseDelay maxDelay jitter g =
      (Throw (VError "The max attempts must be between 0 and 10."), g) /\
    calculateBackoff Math_pow Math_random attempt 11 baseDelay maxDelay jitter g =
      (Throw (VError "The max attempts must be between 0 and 10."), g).
Proof.
  intros attempt maxAttempts baseDelay maxDelay jitter g.
  split; [apply calculateBackoff_rejected|].
  split; [|split; apply calculateBackoff_rejected; [left|right]; reflexivity].
  intros v Hthrow.
  destruct (maxAttempts <? 0) eqn:Hlow; [left; reflexivity|].
  destruct (10 <? maxAttempts) eqn:Hhigh; [right; reflexivity|].
  rewrite (calculateBackoff_accepted _ _ _ _ _ _ Hlow Hhigh) in Hthrow.
  discriminate.
Qed.

(** C6. With [maxAttempts] between 0 and 10, [calculateBackoff] lowers
    [attempt] to [maxAttempts] when it is above it, takes the smaller of
    [baseDelay * 2^(attempt - 1)] and [maxDelay] as the base delay, draws
    one number [r] from the source of randomness, and returns the base
    delay for jitter [None], the base delay times [r] for [Full], and the
    base delay times [0.5 + 0.5 * r] for [Equal].  With base delay 100,
    cap 1000, attempt 5 of 5, jitter [Full] and the number drawn 0.5, the
    result is 500. *)
Theorem calculateBackoff_delay :
  forall (g : RandomSource),
    (forall (attempt maxAttempts baseDelay maxDelay : float) (jitter : Jitter.t),
       (0 <=? maxAttempts) = true -> (maxAttempts <=? 10) = true ->
       let r := fst (Math_random g) in
       let attempt' := if maxAttempts <? attempt then maxAttempts else attempt in
       let delay := Math_min (baseDelay * Math_pow 2 (attempt' - 1)) maxDelay in
       calculateBackoff Math_pow Math_random attempt maxAttempts baseDelay maxDelay jitter g =
         (Normal match jitter with
                 | Jitter.None => delay
                 | Jitter.Full => delay * r
                 | Jitter.Equal => delay * (0.5 + 0.5 * r)
                 end,
          snd (Math_random g))) /\
    (Math_pow 2 4 = 16 -> fst (Math_random g) = 0.5 ->
       calculateBackoff Math_pow Math_random 5 5 100 1000 Jitter.Full g =
         (Normal 500, snd (Math_random g))).
Proof.
  intros g. split.
  - intros attempt maxAttempts baseDelay maxDelay jitter Hlow Hhigh.
    apply calculateBackoff_accepted; apply leb_true_ltb_false; assumption.
  - intros Hpow Hr.
    rewrite calculateBackoff_accepted by reflexivity.
    rewrite Hr. unfold jittered, base_delay, clamped_attempt.
    change (if 5 <? 5 then 5 else 5) with 5.
    change (5 - 1) with 4. rewrite Hpow. reflexivity.
Qed.

End Host.

Lemma calculateBackoff_delay_witness :
  calculateBackoff pow_whole scripted_random
    5 5 100 1000 Jitter.Full [0.5; 0.25] = (Normal 500, [0.25]) /\
  calculateBackoff pow_whole scripted_random
    9 3 100 1000 Jitter.Equal [0.5; 0.25] = (Normal 300, [0.25]).
Proof.
  destruct (calculateBackoff_delay pow_whole (list float) scripted_random [0.5; 0.25])
    as (Hall & Hfive).
  split.
  - apply Hfive; reflexivity.
  - apply (Hall 9 3 100 1000 Jitter.Equal); reflexivity.
Defined.

Lemma calculateBackoff_range_check_witness :
  calculateBackoff pow_whole scripted_random
    1 10.5 100 1000 Jitter.None [0.5] =
    (Throw (VError "The max attempts must be between 0 and 10."), [0.5]).
Proof.
  destruct (calculateBackoff_range_check pow_whole (list float) scripted_random
              1 10.5 100 1000 Jitter.None [0.5]) as (Hout & _).
  apply Hout. right. reflexivity.
Defined.

End BackoffFacts.

(** * Further properties of the code *)

Module BreakerRunFacts.
Import CircuitBreakerBase Runs.

Lemma run_ops_app (ops1 ops2 : list breaker_op) (cb : t) :
  run_ops (ops1 ++ ops2) cb = run_ops ops2 (run_ops ops1 cb).
Proof. unfold run_ops. apply fold_left_app. Qed.

Lemma apply_op_wf (cb : t) (op : breaker_op) : wf cb -> wf (apply_op cb op).
Proof.
  destruct op; simpl; [apply CircuitBreakerBaseFacts.trip_wf
                      | apply CircuitBreakerBaseFacts.reset_wf].
Qed.

Lemma run_ops_wf (ops : list breaker_op) :
  forall cb : t, wf cb -> wf (run_ops ops cb).
Proof.
  induction ops as [|op ops IH]; intros cb Hwf; [exact Hwf|].
  apply (IH (apply_op cb op)). apply apply_op_wf. exact Hwf.
Qed.

(** X1. Whatever [trip()] and [reset()] calls a breaker receives, in any
    order, its trip time is present exactly when it is tripped. *)
Theorem ops_keep_trip_time_in_step :
  forall (ops : list breaker_op) (cb : t),
    wf cb ->
    wf (run_ops ops cb) /\
    (isTripped (run_ops ops cb) = true <-> trippedAt (run_ops ops cb) <> None).
Proof.
  intros ops cb Hwf.
  pose proof (run_ops_wf ops cb Hwf) as Hrun.
  split; [exact Hrun|].
  unfold wf, isTripped in *.
  destruct (trippedAt (run_ops ops cb)); rewrite Hrun; split;
    intros; congruence.
Qed.

Lemma ops_keep_trip_time_in_step_witness :
  wf (run_ops [OpTrip 5; OpTrip 9; OpReset; OpReset; OpTrip 12] create).
Proof.
  destruct (ops_keep_trip_time_in_step
              [OpTrip 5; OpTrip 9; OpReset; OpReset; OpTrip 12] create
              CircuitBreakerBaseFacts.create_wf) as [Hwf _].
  exact Hwf.
Defined.

Lemma reset_closes (cb : t) : wf cb -> snd (reset cb) = create.
Proof.
  destruct cb as [[] [a|]]; unfold wf; simpl; intros Hwf;
    try discriminate; reflexivity.
Qed.

Lemma trips_after_first (ts : list Z) (t0 : Z) :
  run_ops (map OpTrip ts) {| _isTripped := true; trippedAt := Some t0 |} =
    {| _isTripped := true; trippedAt := Some t0 |}.
Proof. induction ts as [|t ts IH]; [reflexivity | exact IH]. Qed.

(** X2. The trip time is the time of the first [trip()] since the last
    [reset()]: later [trip()] calls do not move it, and [test()] reports
    the time elapsed since that first trip. *)
Theorem first_trip_since_reset_is_kept :
  forall (ops : list breaker_op) (cb : t) (t0 : Z) (ts : list Z)
         (n : string) (now : Z),
    wf cb ->
    let cb' := run_ops (ops ++ OpReset :: map OpTrip (t0 :: ts)) cb in
    cb' = {| _isTripped := true; trippedAt := Some t0 |} /\
    test (Normal n) now cb' =
      Throw (VCircuitBreakerError (trip_message n (now - t0))).
Proof.
  intros ops cb t0 ts n now Hwf cb'.
  assert (Hcb : cb' = {| _isTripped := true; trippedAt := Some t0 |}).
  { unfold cb'. rewrite run_ops_app.
    change (run_ops (OpReset :: map OpTrip (t0 :: ts)) (run_ops ops cb))
      with (run_ops (map OpTrip ts)
              (snd (trip t0 (snd (reset (run_ops ops cb)))))).
    rewrite reset_closes by (apply run_ops_wf; exact Hwf).
    apply trips_after_first. }
  split; [exact Hcb|]. rewrite Hcb. reflexivity.
Qed.

Lemma first_trip_since_reset_is_kept_witness :
  run_ops ([OpTrip 3] ++ OpReset :: map OpTrip [10; 20; 30]) create
    = {| _isTripped := true; trippedAt := Some 10 |}.
Proof.
  destruct (first_trip_since_reset_is_kept [OpTrip 3] create 10 [20; 30] "db" 40
              CircuitBreakerBaseFacts.create_wf) as [Hcb _].
  exact Hcb.
Defined.

End BreakerRunFacts.

Module ExecutionExtras.
Import ExecutionCircuitBreakerBase.

Section Wrapper.

Context {S : Type} `{Strategy S}.

Lemma gate_when_tripped (cb : t S) (now : Z) (n : string) :
  isTripped cb = true -> name (self cb) = Normal n ->
  _attemptToProceed now cb =
    if Date_reached (_nextRetry cb) now && truthy (_shouldRetry cb)
    then Normal tt
    else Throw (VCircuitBreakerError
                  (CircuitBreakerBase.trip_message n
                     (now - match CircuitBreakerBase.trippedAt (base cb) with
                            | Some t => t
                            | None => now
                            end))).
Proof.
  intros Htr Hn.
  destruct (CircuitBreakerBaseFacts.test_tripped (name (self cb)) now (base cb) Htr)
    as (e & Ht & Hmsg & _).
  rewrite (ExecutionFacts.gate_after_throw cb now e Ht).
  rewrite (Hmsg n Hn). reflexivity.
Qed.

(** The gate of a tripped breaker whose flag is set follows the retry
    time alone. *)
Lemma gate_of_flagged (cb : t S) (now : Z) (n : string) :
  isTripped cb = true -> name (self cb) = Normal n ->
  _shouldRetry cb = Some true ->
  (_attemptToProceed now cb = Normal tt <-> reached (_nextRetry cb) now).
Proof.
  intros Htr Hn Hflag. rewrite (gate_when_tripped cb now n Htr Hn), Hflag.
  cbn [truthy]. rewrite andb_true_r, <- ExecutionFacts.Date_reached_spec.
  destruct (Date_reached (_nextRetry cb) now); split; congruence.
Qed.

Lemma flag_set_after_passing (action : Action) (cb : t S) (w : World) :
  _attemptToProceed (clock w) cb = Normal tt ->
  _shouldRetry (snd (fst (execute action cb w))) = Some true.
Proof.
  intros Hg. unfold execute. rewrite Hg.
  destruct (action cb w) as [[[[]|e] cb0] w1]; cbn [fst snd].
  - destruct (ExecutionFacts.reset_fields (set_shouldRetry cb0)) as (_ & _ & Hs & _).
    rewrite Hs. reflexivity.
  - destruct (on_failure e (clock w1) cb0). reflexivity.
Qed.

(** X3. A breaker that is not tripped never rejects a call: [execute] and
    [executeAsync] run the action on the breaker and the world as they
    are, and each of them returns exactly when the action returns. *)
Theorem closed_breaker_runs_every_action :
  forall (cb : t S) (w : World) (action : Action),
    isTripped cb = false ->
    _attemptToProceed (clock w) cb = Normal tt /\
    snd (execute action cb w) = snd (action cb w) /\
    snd (executeAsync action cb w) = snd (action cb w) /\
    (fst (fst (execute action cb w)) = Normal tt <->
     fst (fst (action cb w)) = Normal tt) /\
    (fst (fst (executeAsync action cb w)) = Normal tt <->
     fst (fst (action cb w)) = Normal tt).
Proof.
  intros cb w action Hu.
  pose proof (ExecutionFacts.gate_open_when_untripped cb (clock w) Hu) as Hg.
  destruct (ExecutionFacts.execute_passed action cb w Hg) as [Hw Hr].
  change (executeAsync action cb w) with (execute action cb w).
  split; [exact Hg|]. split; [exact Hw|]. split; [exact Hw|].
  split; exact Hr.
Qed.

(** X4. Once a call has passed the gate, whether its action returned or
    threw, [_shouldRetry] is set; from then on a tripped breaker lets a
    call through exactly when the retry time has come. *)
Theorem gate_follows_retry_time_after_a_call :
  forall (cb : t S) (w : World) (action : Action),
    _attemptToProceed (clock w) cb = Normal tt ->
    let cb' := snd (fst (execute action cb w)) in
    _shouldRetry cb' = Some true /\
    (forall (now : Z) (n : string),
       isTripped cb' = true -> name (self cb') = Normal n ->
       (_attemptToProceed now cb' = Normal tt <-> reached (_nextRetry cb') now)).
Proof.
  intros cb w action Hg cb'.
  pose proof (flag_set_after_passing action cb w Hg) as Hflag.
  fold cb' in Hflag. split; [exact Hflag|].
  intros now n Htr Hn. apply (gate_of_flagged cb' now n Htr Hn Hflag).
Qed.

(** X5. A breaker that is tripped while [_shouldRetry] is not set, as one
    tripped by [trip()] before any call was made, rejects every call,
    however late it comes, and does not run its action; [reset()] is the
    only way to open it again. *)
Theorem tripped_without_flag_rejects_forever :
  forall (cb : t S) (w : World) (action : Action),
    isTripped cb = true ->
    truthy (_shouldRetry cb) = false ->
    (exists e : value, execute action cb w = (Throw e, cb, w)) /\
    snd (execute action (snd (reset cb)) w) = snd (action (snd (reset cb)) w).
Proof.
  intros cb w action Htr Hflag. split.
  - destruct (CircuitBreakerBaseFacts.test_tripped (name (self cb)) (clock w) (base cb) Htr)
      as (e & Ht & _).
    exists e. apply ExecutionFacts.execute_stopped.
    rewrite (ExecutionFacts.gate_after_throw cb (clock w) e Ht), Hflag, andb_false_r.
    destruct (instanceof_CircuitBreakerError e); reflexivity.
  - apply ExecutionFacts.execute_passed.
    apply ExecutionFacts.gate_open_when_untripped.
    apply ExecutionFacts.reset_fields.
Qed.

(** The breaker left by a call whose action threw a tripping error, the
    retry interval getter returning. *)
Lemma state_after_tripping_failure (cb cb0 : t S) (w w1 : World) (action : Action)
  (e : value) (s1 : S) (interval : float) :
  _attemptToProceed (clock w) cb = Normal tt ->
  action cb w = (Throw e, cb0, w1) ->
  shouldTrip e (clock w1) (self cb0) = (Normal true, s1) ->
  retryInterval s1 = Normal interval ->
  execute action cb w =
    (Throw e,
     {| base := snd (CircuitBreakerBase.trip (clock w1) (base cb0));
        _nextRetry := Date_after (clock w1) interval;
        _shouldRetry := Some true;
        self := s1 |},
     w1).
Proof.
  intros Hg Hact Hdec Hint. unfold execute.
  rewrite Hg, Hact,
    (ExecutionFacts.on_failure_tripped cb0 e (clock w1) s1 interval Hdec Hint).
  reflexivity.
Qed.

(** X6. After a failure that trips the breaker, the retry time is the
    date [new Date(failure time + retry interval)], and calls are rejected
    exactly until that date is reached.  When the date is valid, it is a
    whole number of milliseconds and calls pass from that moment on; when
    it is an Invalid Date, because the sum is no number or out of the
    range of dates, every call is rejected, however late it comes. *)
Theorem rejected_until_retry_time :
  forall (cb cb0 : t S) (w w1 : World) (action : Action) (e : value)
         (s1 : S) (interval : float) (n : string),
    _attemptToProceed (clock w) cb = Normal tt ->
    action cb w = (Throw e, cb0, w1) ->
    shouldTrip e (clock w1) (self cb0) = (Normal true, s1) ->
    retryInterval s1 = Normal interval ->
    name s1 = Normal n ->
    let cb' := snd (fst (execute action cb w)) in
    let retryAt := TimeClip (PrimFloat.add (number_of_time (clock w1)) interval) in
    _nextRetry cb' = retryAt /\
    (forall now : Z,
       _attemptToProceed now cb' = Normal tt <-> reached retryAt now) /\
    (forall t : Z,
       retryAt = Some t ->
       - 8640000000000000 <= t <= 8640000000000000 /\
       forall now : Z, _attemptToProceed now cb' = Normal tt <-> t <= now) /\
    (retryAt = None ->
       forall now : Z, _attemptToProceed now cb' <> Normal tt).
Proof.
  intros cb cb0 w w1 action e s1 interval n Hg Hact Hdec Hint Hn cb' retryAt.
  assert (Hcb : cb' =
            {| base := snd (CircuitBreakerBase.trip (clock w1) (base cb0));
               _nextRetry := retryAt;
               _shouldRetry := Some true;
               self := s1 |}).
  { unfold cb'.
    rewrite (state_after_tripping_failure cb cb0 w w1 action e s1 interval
               Hg Hact Hdec Hint).
    reflexivity. }
  assert (Htr : isTripped cb' = true).
  { rewrite Hcb. apply CircuitBreakerBaseFacts.trip_tripped. }
  assert (Hgate : forall now : Z,
             _attemptToProceed now cb' = Normal tt <-> reached retryAt now).
  { intros now.
    rewrite (gate_of_flagged cb' now n Htr) by (rewrite Hcb; first [exact Hn | reflexivity]).
    rewrite Hcb. reflexivity. }
  split; [rewrite Hcb; reflexivity|].
  split; [exact Hgate|]. split.
  - intros t Ht. split; [apply (ExecutionFacts.TimeClip_range _ t Ht)|].
    intros now. rewrite (Hgate now), Ht. reflexivity.
  - intros Hinvalid now Hpass. apply (Hgate now) in Hpass.
    rewrite Hinvalid in Hpass. exact Hpass.
Qed.

(** X7. A probe that fails with a tripping error arms the breaker again:
    if the retry interval getter returns, the error of the probe is
    rethrown, the retry time moves to
    [new Date(time of this failure + retry interval)], and the trip time
    stays that of the first trip.  If the getter throws, its error leaves
    the call in place of that of the probe, and the retry time does not
    move. *)
Theorem failed_probe_rearms :
  forall (cb cb0 : t S) (w w1 : World) (action : Action) (e : value) (s1 : S),
    _attemptToProceed (clock w) cb = Normal tt ->
    action cb w = (Throw e, cb0, w1) ->
    isTripped cb0 = true ->
    shouldTrip e (clock w1) (self cb0) = (Normal true, s1) ->
    let cb' := snd (fst (execute action cb w)) in
    (forall interval : float,
       retryInterval s1 = Normal interval ->
       base cb' = base cb0 /\
       _nextRetry cb' = TimeClip (PrimFloat.add (number_of_time (clock w1)) interval) /\
       fst (fst (execute action cb w)) = Throw e /\
       fst (fst (executeAsync action cb w)) = Throw e) /\
    (forall e' : value,
       retryInterval s1 = Throw e' ->
       base cb' = base cb0 /\
       _nextRetry cb' = _nextRetry cb0 /\
       fst (fst (execute action cb w)) = Throw e' /\
       fst (fst (executeAsync action cb w)) = Throw e').
Proof.
  intros cb cb0 w w1 action e s1 Hg Hact Htr Hdec cb'.
  change (executeAsync action cb w) with (execute action cb w).
  split.
  - intros interval Hint. unfold cb'.
    rewrite (state_after_tripping_failure cb cb0 w w1 action e s1 interval
               Hg Hact Hdec Hint).
    cbn [fst snd base _nextRetry].
    repeat split. unfold CircuitBreakerBase.trip.
    unfold isTripped, CircuitBreakerBase.isTripped in Htr. rewrite Htr. reflexivity.
  - intros e' Hint. unfold cb', execute.
    rewrite Hg, Hact,
      (ExecutionFacts.on_failure_interval_thrown cb0 e e' (clock w1) s1 Hdec Hint).
    repeat split.
Qed.

End Wrapper.

(** X8. The windowed breaker given an action that throws [undefined] or
    [null]: the caller gets the error of [shouldTrip] in place of what the
    action threw, and the failure is neither counted nor a reason to
    trip. *)
Theorem nullish_throw_is_replaced :
  forall (cb cb0 : t ThresholdExecutionCircuitBreaker.fields) (w w1 : World)
         (action : Action) (e : value),
    _attemptToProceed (clock w) cb = Normal tt ->
    action cb w = (Throw e, cb0, w1) ->
    is_nullish e = true ->
    execute action cb w =
      (Throw (VError "error cannot be null or undefined."),
       set_shouldRetry cb0, w1).
Proof.
  intros cb cb0 w w1 action e Hg Hact Hnull.
  unfold execute. rewrite Hg, Hact.
  rewrite (ExecutionFacts.on_failure_thrown cb0 e
             (VError "error cannot be null or undefined.") (clock w1) (self cb0)).
  - destruct cb0; reflexivity.
  - cbn. unfold ThresholdExecutionCircuitBreaker.shouldTrip. rewrite Hnull. reflexivity.
Qed.

(** X9. The simple execution breaker, on an action that throws [e].  Its
    failure detector and its retry interval calculator are functions of
    the caller, run while the error is handled.  If the detector returns
    false, [e] goes back to the caller and retry time and breaker state
    stay as they are.  If it returns true and the calculator returns, [e]
    goes back to the caller, the breaker is tripped and the retry time is
    [new Date(now + interval)].  If the detector throws, or returns true
    and the calculator throws, what was thrown goes back to the caller in
    place of [e], and the breaker is left as it is, not tripped by this
    call.  So the call rethrows [e] and trips on it exactly when the
    detector accepts and the calculator returns. *)
Theorem simple_breaker_trips_when_detected :
  forall (cb cb0 : t ExecutionCircuitBreaker.fields) (w w1 : World)
         (action : Action) (e : value),
    _attemptToProceed (clock w) cb = Normal tt ->
    action cb w = (Throw e, cb0, w1) ->
    let detector := ExecutionCircuitBreaker._failureDetector (self cb0) in
    let calculator := ExecutionCircuitBreaker._retryIntervalCalculator (self cb0) in
    let cb' := snd (fst (execute action cb w)) in
    (detector e = Normal false ->
       execute action cb w = (Throw e, set_shouldRetry cb0, w1)) /\
    (forall interval : float,
       detector e = Normal true -> calculator tt = Normal interval ->
       fst (fst (execute action cb w)) = Throw e /\
       isTripped cb' = true /\
       _nextRetry cb' = TimeClip (PrimFloat.add (number_of_time (clock w1)) interval) /\
       _shouldRetry cb' = Some true /\
       self cb' = self cb0) /\
    (forall e' : value,
       detector e = Normal true -> calculator tt = Throw e' ->
       execute action cb w = (Throw e', set_shouldRetry cb0, w1)) /\
    (forall e' : value,
       detector e = Throw e' ->
       execute action cb w = (Throw e', set_shouldRetry cb0, w1)) /\
    (isTripped cb0 = false ->
       (isTripped cb' = true <->
        detector e = Normal true /\ exists interval, calculator tt = Normal interval)).
Proof.
  intros cb cb0 w w1 action e Hg Hact detector calculator cb'.
  assert (Hkept : forall thrown : value,
             on_failure e (clock w1) cb0 = (thrown, cb0) ->
             execute action cb w = (Throw thrown, set_shouldRetry cb0, w1)).
  { intros thrown Hfail. unfold execute. rewrite Hg, Hact, Hfail. reflexivity. }
  assert (Hsame : {| base := base cb0; _nextRetry := _nextRetry cb0;
                     _shouldRetry := _shouldRetry cb0; self := self cb0 |} = cb0).
  { destruct cb0; reflexivity. }
  assert (Hfalse : detector e = Normal false ->
            execute action cb w = (Throw e, set_shouldRetry cb0, w1)).
  { intros Hd. apply Hkept.
    rewrite (ExecutionFacts.on_failure_kept cb0 e (clock w1) (self cb0)), Hsame;
      [reflexivity|].
    cbn. fold detector. rewrite Hd. reflexivity. }
  assert (Htrue : forall interval : float,
            detector e = Normal true -> calculator tt = Normal interval ->
            execute action cb w =
              (Throw e,
               {| base := snd (CircuitBreakerBase.trip (clock w1) (base cb0));
                  _nextRetry := Date_after (clock w1) interval;
                  _shouldRetry := Some true;
                  self := self cb0 |},
               w1)).
  { intros interval Hd Hc.
    apply (state_after_tripping_failure cb cb0 w w1 action e (self cb0) interval Hg Hact).
    - cbn. fold detector. rewrite Hd. reflexivity.
    - exact Hc. }
  assert (Hcalc : forall e' : value,
            detector e = Normal true -> calculator tt = Throw e' ->
            execute action cb w = (Throw e', set_shouldRetry cb0, w1)).
  { intros e' Hd Hc. apply Hkept.
    rewrite (ExecutionFacts.on_failure_interval_thrown cb0 e e' (clock w1) (self cb0)),
      Hsame; [reflexivity | | exact Hc].
    cbn. fold detector. rewrite Hd. reflexivity. }
  assert (Hdet : forall e' : value,
            detector e = Throw e' ->
            execute action cb w = (Throw e', set_shouldRetry cb0, w1)).
  { intros e' Hd. apply Hkept.
    rewrite (ExecutionFacts.on_failure_thrown cb0 e e' (clock w1) (self cb0)), Hsame;
      [reflexivity|].
    cbn. fold detector. rewrite Hd. reflexivity. }
  split; [exact Hfalse|]. split; [|split; [exact Hcalc|split; [exact Hdet|]]].
  - intros interval Hd Hc. unfold cb'. rewrite (Htrue interval Hd Hc).
    cbn [fst snd _nextRetry _shouldRetry self].
    repeat split. apply CircuitBreakerBaseFacts.trip_tripped.
  - intros Hclosed. unfold cb'.
    destruct (detector e) as [[|]|e'] eqn:Hd.
    + destruct (calculator tt) as [interval|e'] eqn:Hc.
      * rewrite (Htrue interval eq_refl eq_refl). cbn [fst snd].
        split; [intros _; split; [reflexivity | exists interval; reflexivity]|].
        intros _. apply CircuitBreakerBaseFacts.trip_tripped.
      * rewrite (Hcalc e' eq_refl eq_refl). cbn [fst snd].
        change (isTripped (set_shouldRetry cb0)) with (isTripped cb0).
        rewrite Hclosed. split; [discriminate|].
        intros (_ & interval & Hf). discriminate.
    + rewrite (Hfalse eq_refl). cbn [fst snd].
      change (isTripped (set_shouldRetry cb0)) with (isTripped cb0).
      rewrite Hclosed. split; [discriminate|].
      intros (Hf & _). discriminate.
    + rewrite (Hdet e' eq_refl). cbn [fst snd].
      change (isTripped (set_shouldRetry cb0)) with (isTripped cb0).
      rewrite Hclosed. split; [discriminate|].
      intros (Hf & _). discriminate.
Qed.

End ExecutionExtras.

Module ThresholdRunFacts.
Import ThresholdExecutionCircuitBreaker Runs.

(** A run of counted failures inside the running window. *)
Lemma running_burst (calls : list (value * Z)) :
  forall (s : fields) (c : Z),
    all_counted s calls ->
    _errorCount s = Some (Int c) ->
    Forall (fun call => snd call <= _errorCountIntervalEnd s) calls ->
    fst (shouldTripAll calls s) =
      map (fun j => Normal (c + Z.of_nat j >? _errorCountGetter s tt))
        (seq 1 (length calls)) /\
    _errorCount (snd (shouldTripAll calls s)) =
      Some (Int (c + Z.of_nat (length calls))) /\
    _errorCountIntervalEnd (snd (shouldTripAll calls s)) = _errorCountIntervalEnd s.
Proof.
  induction calls as [|[error now] rest IH]; intros s c Hall Hc Hin.
  - cbn. rewrite Z.add_0_r. auto.
  - inversion Hall as [|? ? [Hn Hd] Hrest]; subst.
    inversion Hin as [|? ? Hnow Hin']; subst. cbn [fst snd] in *.
    cbn [shouldTripAll].
    rewrite (ThresholdFacts.shouldTrip_running s error now c Hn Hd Hnow Hc).
    set (s1 := with_window s (Some (Int (c + 1))) (_errorCountIntervalEnd s)).
    destruct (IH s1 (c + 1) Hrest eq_refl Hin') as (Hanswers & Hcount & Hend).
    destruct (shouldTripAll rest s1) as [answers s2]. cbn [fst snd] in *.
    rewrite Hanswers, Hcount, Hend. cbn [length seq map].
    split; [|split; [f_equal; f_equal; lia | reflexivity]].
    f_equal. rewrite <- (seq_shift (length rest) 1), map_map.
    apply map_ext. intros j.
    replace (c + 1 + Z.of_nat j) with (c + Z.of_nat (S j)) by lia. reflexivity.
Qed.

(** X10. A burst of failures inside one window: when the first of them
    comes after the end of the window before and the others before the
    end of the window it opens, the answer to the [j]-th is whether [j] is
    above the error threshold, and the window then holds all of them. *)
Theorem burst_trips_past_threshold :
  forall (s : fields) (first : value) (now : Z) (rest : list (value * Z)),
    all_counted s ((first, now) :: rest) ->
    _errorCountIntervalEnd s < now ->
    Forall (fun call => snd call <= now + _errorIntervalGetter s tt) rest ->
    let run := shouldTripAll ((first, now) :: rest) s in
    fst run =
      map (fun j => Normal (Z.of_nat j >? _errorCountGetter s tt))
        (seq 1 (S (length rest))) /\
    _errorCount (snd run) = Some (Int (Z.of_nat (S (length rest)))) /\
    _errorCountIntervalEnd (snd run) = now + _errorIntervalGetter s tt.
Proof.
  intros s first now rest Hall Hlate Hin run.
  inversion Hall as [|? ? [Hn Hd] Hrest]; subst. cbn [fst] in *.
  unfold run. cbn [shouldTripAll].
  rewrite (ThresholdFacts.shouldTrip_expired s first now Hn Hd) by lia.
  set (s1 := with_window s (Some (Int 1)) (now + _errorIntervalGetter s tt)).
  destruct (running_burst rest s1 1 Hrest eq_refl Hin) as (Hanswers & Hcount & Hend).
  destruct (shouldTripAll rest s1) as [answers s2]. cbn [fst snd] in *.
  rewrite Hanswers, Hcount, Hend. cbn [seq map].
  split; [|split; [f_equal; f_equal; lia | reflexivity]].
  f_equal. rewrite <- (seq_shift (length rest) 1), map_map.
  apply map_ext. intros j.
  replace (1 + Z.of_nat j) with (Z.of_nat (S j)) by lia. reflexivity.
Qed.

(** X11. Failures that are spaced out, each one coming after the end of
    the window opened by the one before, are each the first of their
    window: every answer is whether 1 is above the threshold, so with a
    threshold of 1 or more the breaker never trips on them. *)
Theorem spaced_out_failures_never_add_up :
  forall (calls : list (value * Z)) (s : fields),
    all_counted s calls ->
    spaced_out (_errorIntervalGetter s tt) (_errorCountIntervalEnd s) calls ->
    fst (shouldTripAll calls s) =
      map (fun _ => Normal (1 >? _errorCountGetter s tt)) calls /\
    (1 <= _errorCountGetter s tt ->
     Forall (fun answer => answer = Normal false) (fst (shouldTripAll calls s))).
Proof.
  intros calls s Hall Hsp.
  assert (Hanswers : fst (shouldTripAll calls s) =
                       map (fun _ => Normal (1 >? _errorCountGetter s tt)) calls).
  { revert s Hall Hsp.
    induction calls as [|[error now] rest IH]; intros s Hall Hsp; [reflexivity|].
    inversion Hall as [|? ? [Hn Hd] Hrest]; subst. cbn [fst] in *.
    destruct Hsp as [Hlate Hsp]. cbn [shouldTripAll].
    rewrite (ThresholdFacts.shouldTrip_expired s error now Hn Hd) by lia.
    set (s1 := with_window s (Some (Int 1)) (now + _errorIntervalGetter s tt)).
    pose proof (IH s1 Hrest Hsp) as Hrec.
    destruct (shouldTripAll rest s1) as [answers s2]. cbn [fst snd map] in *.
    rewrite Hrec. reflexivity. }
  split; [exact Hanswers|].
  intros Hthr. rewrite Hanswers. apply Forall_forall.
  intros answer Hin. apply in_map_iff in Hin as (call & Heq & _). subst answer.
  f_equal. rewrite Z.gtb_ltb. apply Z.ltb_ge. exact Hthr.
Qed.

End ThresholdRunFacts.

Module PolicyExtras.
Import DefaultCircuitBreakerPolicy Runs.

Section Policy.

Variable Context_ : Type.
Implicit Types (p : t Context_) (ctx : Context_) (w : World).

Lemma breaker_trip_wf (cb : CircuitBreaker.t) (now : Z) :
  CircuitBreakerBase.wf (CircuitBreaker.base cb) ->
  CircuitBreakerBase.wf (CircuitBreaker.base (snd (CircuitBreaker.trip now cb))).
Proof.
  intros Hwf. unfold CircuitBreaker.trip.
  pose proof (CircuitBreakerBaseFacts.trip_wf now (CircuitBreaker.base cb) Hwf) as Ht.
  destruct (CircuitBreakerBase.trip now (CircuitBreaker.base cb)); exact Ht.
Qed.

Lemma breaker_reset_wf (cb : CircuitBreaker.t) :
  CircuitBreakerBase.wf (CircuitBreaker.base cb) ->
  CircuitBreakerBase.wf (CircuitBreaker.base (snd (CircuitBreaker.reset cb))).
Proof.
  intros Hwf. unfold CircuitBreaker.reset.
  pose proof (CircuitBreakerBaseFacts.reset_wf (CircuitBreaker.base cb) Hwf) as Ht.
  destruct (CircuitBreakerBase.reset (CircuitBreaker.base cb)); exact Ht.
Qed.

(** What holds in every state a policy goes through. *)
Lemma reachable_invariant p :
  reachable p ->
  truthy (_shouldRetry p) = false /\
  CircuitBreakerBase.wf (CircuitBreaker.base (_circuitBreaker p)) /\
  0 <= Config.failuresAllowedBeforeTrip (config p) /\
  match _consecutiveFailures p with
  | None => CircuitBreaker.isTripped (_circuitBreaker p) = false
  | Some NaN => CircuitBreaker.isTripped (_circuitBreaker p) = true
  | Some (Int c) =>
      0 <= c /\
      CircuitBreaker.isTripped (_circuitBreaker p) =
        (c >? Config.failuresAllowedBeforeTrip (config p))
  end.
Proof.
  induction 1 as [identifier cfg authority p Hnew
                 | ctx error p w Hreach (Hflag & Hwf & Hallow & Hcount)
                 | ctx p Hreach (Hflag & Hwf & Hallow & Hcount)
                 | f p Hreach IH | f p Hreach IH].
  - destruct (PolicyFacts.create_fields Context_ identifier cfg authority p Hnew)
      as (Hcount & Hflag & _ & Hclosed & _ & Hallow).
    rewrite Hcount, Hflag. repeat split; try assumption.
    unfold create in Hnew.
    destruct authority; [|discriminate].
    destruct identifier as [[|c i]|]; try discriminate.
    destruct cfg as [cf|]; [|discriminate].
    destruct (Config.failuresAllowedBeforeTrip cf <? 0); [discriminate|].
    inversion Hnew; reflexivity.
  - unfold notifyRequestFinished.
    destruct (_tripReasonAuthority p ctx error) eqn:Hauth.
    + destruct (_consecutiveFailures p) as [[|c]|] eqn:Hc.
      * rewrite (PolicyFacts.tryToTrip_uncounted Context_ ctx _ p)
          by (rewrite Hc; reflexivity).
        cbn. repeat split; try assumption.
        -- apply breaker_trip_wf. exact Hwf.
        -- apply PolicyFacts.breaker_trip_tripped.
      * rewrite (PolicyFacts.tryToTrip_counts Context_ ctx _ p c Hc).
        destruct Hcount as [Hpos Htripped].
        destruct (c + 1 <=? Config.failuresAllowedBeforeTrip (config p)) eqn:Hle; cbn.
        -- apply Z.leb_le in Hle. repeat split; try assumption; try lia.
           rewrite Htripped. rewrite !Z.gtb_ltb.
           transitivity false; [|symmetry]; apply Z.ltb_ge; lia.
        -- apply Z.leb_gt in Hle. repeat split; try assumption; try lia.
           ++ apply breaker_trip_wf. exact Hwf.
           ++ rewrite PolicyFacts.breaker_trip_tripped. symmetry.
              apply Z.gtb_lt. lia.
      * rewrite (PolicyFacts.tryToTrip_uncounted Context_ ctx _ p)
          by (rewrite Hc; reflexivity).
        cbn. repeat split; try assumption.
        -- apply breaker_trip_wf. exact Hwf.
        -- apply PolicyFacts.breaker_trip_tripped.
    + cbn. repeat split; try assumption; try lia.
      * apply breaker_reset_wf. exact Hwf.
      * rewrite PolicyFacts.breaker_reset_untripped. symmetry.
        rewrite Z.gtb_ltb. apply Z.ltb_ge. exact Hallow.
  - cbn. repeat split; assumption.
  - exact IH.
  - exact IH.
Qed.

(** X12. In every state a policy goes through, built by the constructor
    and then notified and given callbacks in any order, the breaker is
    tripped exactly when the counter of consecutive failures is above the
    allowance or is not a number, and its trip time is present exactly
    when it is tripped. *)
Theorem open_exactly_when_over_allowance :
  forall p,
    reachable p ->
    (CircuitBreaker.isTripped (_circuitBreaker p) = true <->
     ToNumber (_consecutiveFailures p) = NaN /\ _consecutiveFailures p <> None \/
     exists c : Z,
       _consecutiveFailures p = Some (Int c) /\
       Config.failuresAllowedBeforeTrip (config p) < c) /\
    CircuitBreakerBase.wf (CircuitBreaker.base (_circuitBreaker p)).
Proof.
  intros p Hreach.
  destruct (reachable_invariant p Hreach) as (_ & Hwf & _ & Hcount).
  split; [|exact Hwf].
  destruct (_consecutiveFailures p) as [[|c]|]; cbn [ToNumber].
  - rewrite Hcount. split; [intros _; left; split; [reflexivity|discriminate]
                          | reflexivity].
  - destruct Hcount as [_ Htripped]. rewrite Htripped. split.
    + intros Hgt. right. exists c. split; [reflexivity|]. apply Z.gtb_lt in Hgt. lia.
    + intros [[Hnan _]|(c' & Heq & Hgt)]; [discriminate|].
      inversion Heq; subst c'. apply Z.gtb_lt. lia.
  - rewrite Hcount. split; [discriminate|].
    intros [[_ Hne]|(c & Heq & _)]; [contradiction | discriminate].
Qed.

(** X13. No method of a policy ever sets [_shouldRetry], so in every state
    a policy goes through [throwIfTripped] is decided by the retry time
    alone: it returns exactly when the breaker is untripped or the retry
    time has come, and then for every call until the next notification,
    not just for one probe. *)
Theorem policy_gate_follows_retry_time :
  forall p ctx w,
    reachable p ->
    truthy (_shouldRetry p) = false /\
    (fst (throwIfTripped ctx p w) = Normal tt <->
     CircuitBreaker.isTripped (_circuitBreaker p) = false \/ _nextRetry p <= clock w) /\
    (fst (throwIfTripped ctx p w) = Normal tt -> snd (throwIfTripped ctx p w) = w).
Proof.
  intros p ctx w Hreach.
  destruct (reachable_invariant p Hreach) as (Hflag & _).
  split; [exact Hflag|].
  unfold throwIfTripped, isCircuitBreakerOpen.
  rewrite PolicyFacts.getTripError_normal, Hflag. cbn [negb]. rewrite andb_true_r.
  destruct (CircuitBreaker.isTripped (_circuitBreaker p)); cbn [negb fst snd].
  - destruct (_nextRetry p <=? clock w) eqn:Hle; cbn [negb fst snd].
    + apply Z.leb_le in Hle. split; [tauto | reflexivity].
    + apply Z.leb_gt in Hle.
      destruct (onTerminatingRequest p) as [hook|];
        [destruct (hook w) as [[[]|e] w1]|]; cbn [fst snd];
        (split; [|discriminate]);
        (split; [discriminate|]); intros [Hf|Hl]; first [discriminate | lia].
  - split; [tauto | reflexivity].
Qed.

(** X14. A failure reported while the counter is already over the
    allowance (or is not a number) postpones the retry: the retry time
    moves to the time of this report plus the retry interval, while a
    breaker that is already tripped keeps its trip time. *)
Theorem failure_while_open_postpones_retry :
  forall p ctx (error : value) w,
    _tripReasonAuthority p ctx error = true ->
    le (increment (_consecutiveFailures p))
       (Config.failuresAllowedBeforeTrip (config p)) = false ->
    let w1 := call_optional (onRequestToOpen p) w in
    let p' := fst (notifyRequestFinished ctx error p w) in
    _nextRetry p' = clock w1 + Config.retryInterval (config p) /\
    CircuitBreaker.isTripped (_circuitBreaker p') = true /\
    (CircuitBreaker.isTripped (_circuitBreaker p) = true ->
     _circuitBreaker p' = _circuitBreaker p).
Proof.
  intros p ctx error w Hauth Hover w1 p'.
  unfold p', notifyRequestFinished. rewrite Hauth. fold w1.
  unfold tryToTripCircuitBreaker. cbn [config with_state]. rewrite Hover.
  cbn. split; [reflexivity|]. split; [apply PolicyFacts.breaker_trip_tripped|].
  intros Htr. unfold CircuitBreaker.trip, CircuitBreakerBase.trip.
  unfold CircuitBreaker.isTripped, CircuitBreakerBase.isTripped in Htr.
  rewrite Htr. destruct (_circuitBreaker p); reflexivity.
Qed.

(** X15. A configuration whose allowance went through the setter is never
    refused by the constructor of the policy: the setter throws exactly on
    a negative value, and that is the one value of the allowance the
    constructor refuses. *)
Theorem setter_guards_constructor :
  forall (value : Z) (c : Config.t) (identifier : string)
         (authority : TripReasonAuthority Context_),
    identifier <> "" ->
    (value < 0 ->
       Config.set_failuresAllowedBeforeTrip value c =
         Throw (VError "Failures allowed before trip is out of range.") /\
       create (Some identifier)
         (Some {| Config.retryInterval := Config.retryInterval c;
                  Config.failuresAllowedBeforeTrip := value |})
         (Some authority) =
         Throw (VError "The number of failures allowed before trip cannot be less than zero.")) /\
    (0 <= value ->
       exists (c' : Config.t) p,
         Config.set_failuresAllowedBeforeTrip value c = Normal c' /\
         Config.failuresAllowedBeforeTrip c' = value /\
         Config.retryInterval c' = Config.retryInterval c /\
         create (Some identifier) (Some c') (Some authority) = Normal p /\
         config p = c').
Proof.
  intros value c identifier authority Hid.
  destruct identifier as [|ch rest]; [contradiction|].
  unfold Config.set_failuresAllowedBeforeTrip, create. split.
  - intros Hneg. apply Z.ltb_lt in Hneg. cbn -[Z.ltb]. rewrite Hneg. auto.
  - intros Hpos. apply Z.ltb_ge in Hpos. rewrite Hpos.
    eexists. eexists. split; [reflexivity|]. cbn -[Z.ltb]. rewrite Hpos.
    repeat split; reflexivity.
Qed.

End Policy.

End PolicyExtras.

Module BackoffExtras.
Import ExponentialBackoff.
Local Open Scope float_scope.

(** Facts of IEEE comparison, from the specification of the primitive
    operations. *)
Lemma ltb_irrefl (x : float) : (x <? x) = false.
Proof.
  rewrite ltb_spec. unfold SFltb.
  pose proof (BackoffFacts.SFcompare_antisym (Prim2SF x) (Prim2SF x)) as Hanti.
  destruct (SFcompare (Prim2SF x) (Prim2SF x)) as [[]|]; try reflexivity.
  discriminate.
Qed.

Lemma SFcompare_none (x y : spec_float) :
  SFcompare x y = None -> x = S754_nan \/ y = S754_nan.
Proof.
  destruct x, y; simpl; intros Hc; try discriminate; auto.
Qed.

Lemma not_nan_spec (x : float) : is_nan x = false -> Prim2SF x <> S754_nan.
Proof.
  unfold is_nan. intros Hnan Heq.
  apply negb_false_iff in Hnan. rewrite FloatAxioms.eqb_spec, Heq in Hnan.
  discriminate.
Qed.

Lemma compare_some (x y : float) :
  is_nan x = false -> is_nan y = false ->
  exists c, SFcompare (Prim2SF x) (Prim2SF y) = Some c.
Proof.
  intros Hx Hy.
  destruct (SFcompare (Prim2SF x) (Prim2SF y)) as [c|] eqn:Hc; [eauto|].
  destruct (SFcompare_none _ _ Hc) as [Hn|Hn];
    [apply not_nan_spec in Hx | apply not_nan_spec in Hy]; contradiction.
Qed.

Lemma leb_refl (x : float) : is_nan x = false -> (x <=? x) = true.
Proof.
  intros Hx. rewrite leb_spec. unfold SFleb.
  destruct (compare_some x x Hx Hx) as (c & Hc).
  pose proof (BackoffFacts.SFcompare_antisym (Prim2SF x) (Prim2SF x)) as Hanti.
  rewrite Hc in *. destruct c; try reflexivity; discriminate.
Qed.

Lemma ltb_leb (x y : float) : (x <? y) = true -> (x <=? y) = true.
Proof.
  rewrite ltb_spec, leb_spec. unfold SFltb, SFleb.
  destruct (SFcompare (Prim2SF x) (Prim2SF y)) as [[]|]; congruence.
Qed.

Lemma neither_less (x y : float) :
  is_nan x = false -> is_nan y = false ->
  (x <? y) = false -> (y <? x) = false ->
  (x <=? y) = true /\ (y <=? x) = true.
Proof.
  intros Hx Hy. rewrite !ltb_spec, !leb_spec. unfold SFltb, SFleb.
  rewrite (BackoffFacts.SFcompare_antisym (Prim2SF x) (Prim2SF y)).
  destruct (compare_some x y Hx Hy) as (c & Hc). rewrite Hc.
  destruct c; simpl; intros; try discriminate; auto.
Qed.

(** [Math.min] of two numbers, when it is a number, is below both. *)
Lemma Math_min_below (x y : float) :
  is_nan (Math_min x y) = false ->
  is_nan x = false /\ is_nan y = false /\
  (Math_min x y <=? x) = true /\ (Math_min x y <=? y) = true.
Proof.
  unfold Math_min.
  destruct (is_nan x) eqn:Hx; [cbn [orb]; intros Hn; vm_compute in Hn; discriminate|].
  destruct (is_nan y) eqn:Hy; [cbn [orb]; intros Hn; vm_compute in Hn; discriminate|].
  cbn [orb]. intros _. split; [reflexivity|]. split; [reflexivity|].
  destruct (x <? y) eqn:Hxy.
  - split; [apply leb_refl; exact Hx | apply ltb_leb; exact Hxy].
  - destruct (y <? x) eqn:Hyx.
    + split; [apply ltb_leb; exact Hyx | apply leb_refl; exact Hy].
    + destruct (neither_less x y Hx Hy Hxy Hyx) as [Hle Hge].
      destruct (get_sign x).
      * split; [apply leb_refl; exact Hx | exact Hle].
      * split; [exact Hge | apply leb_refl; exact Hy].
Qed.

Section Host.

Variable Math_pow : float -> float -> float.
Variable RandomSource : Type.
Variable Math_random : RandomSource -> float * RandomSource.

(** X16. Growth stops at [maxAttempts]: every attempt above it gets
    exactly what attempt number [maxAttempts] gets, for every jitter and
    whether the call returns or throws. *)
Theorem attempts_past_the_maximum_are_clamped :
  forall (attempt maxAttempts baseDelay maxDelay : float) (jitter : Jitter.t)
         (g : RandomSource),
    (maxAttempts <? attempt) = true ->
    calculateBackoff Math_pow Math_random attempt maxAttempts baseDelay maxDelay jitter g =
    calculateBackoff Math_pow Math_random maxAttempts maxAttempts baseDelay maxDelay jitter g.
Proof.
  intros attempt maxAttempts baseDelay maxDelay jitter g Habove.
  unfold calculateBackoff. rewrite Habove, ltb_irrefl. reflexivity.
Qed.

(** X17. Without jitter the delay never exceeds the cap: when the result
    is a number, it is at most [maxDelay] and at most
    [baseDelay * 2^(attempt - 1)] for the clamped attempt, and neither of
    the two was [NaN]. *)
Theorem delay_without_jitter_is_capped :
  forall (attempt maxAttempts baseDelay maxDelay delay : float)
         (g g' : RandomSource),
    calculateBackoff Math_pow Math_random attempt maxAttempts baseDelay maxDelay
      Jitter.None g = (Normal delay, g') ->
    is_nan delay = false ->
    let grown :=
      baseDelay * Math_pow 2 (clamped_attempt attempt maxAttempts - 1) in
    (delay <=? maxDelay) = true /\
    (delay <=? grown) = true /\
    is_nan maxDelay = false /\ is_nan grown = false.
Proof.
  intros attempt maxAttempts baseDelay maxDelay delay g g' Hcall Hnum grown.
  unfold calculateBackoff in Hcall.
  destruct ((maxAttempts <? 0) || (ceilingForMaxAttempts <? maxAttempts))%bool;
    [discriminate|].
  destruct (Math_random g) as [r g1]. inversion Hcall; subst delay g1.
  fold (clamped_attempt attempt maxAttempts) in *. fold grown in Hnum |- *.
  destruct (Math_min_below grown maxDelay Hnum) as (Hg & Hm & Hleg & Hlem).
  auto.
Qed.

End Host.

Lemma attempts_past_the_maximum_are_clamped_witness :
  calculateBackoff pow_whole scripted_random 9 3 100 1000 Jitter.None [0.5] =
  calculateBackoff pow_whole scripted_random 3 3 100 1000 Jitter.None [0.5].
Proof.
  apply (attempts_past_the_maximum_are_clamped pow_whole (list float) scripted_random
           9 3 100 1000 Jitter.None [0.5]).
  reflexivity.
Defined.

Lemma delay_without_jitter_is_capped_witness :
  (1000 <=? 1000) = true /\ (1000 <=? 100 * pow_whole 2 (5 - 1)) = true.
Proof.
  destruct (delay_without_jitter_is_capped pow_whole (list float) scripted_random
              5 5 100 1000 1000 [0.5] [] eq_refl eq_refl) as (Hcap & Hgrown & _).
  split; [exact Hcap | exact Hgrown].
Defined.

End BackoffExtras.

Module SentinelFacts.

Lemma cleared_is_inactive (id : nat) (h : Timers.t) :
  Timers.is_active id (Timers.clearInterval id h) = false.
Proof.
  unfold Timers.is_active, Timers.clearInterval. cbn [Timers.active].
  induction (Timers.active h) as [|[i d] rest IH]; [reflexivity|].
  cbn [filter fst]. destruct (i =? id)%nat eqn:Heq; cbn [negb]; [exact IH|].
  cbn [existsb fst]. rewrite Heq. exact IH.
Qed.

(** X18. [monitor] takes a health check that throws for an unhealthy
    service.  [dispose(false)] does nothing.  After [dispose(true)] the
    timer of the sentinel is stopped, [monitor] no longer looks at the
    service, so the health status stays what it was, and a further
    [dispose] does nothing. *)
Theorem sentinel_monitor_and_dispose :
  forall (s : ServiceSentinel.t) (h : Timers.t) (w : World),
    (ServiceSentinel._isDisposed s = false ->
       (ServiceSentinel.isHealthy (ServiceSentinel.monitor s w) = true <->
        ServiceSentinel._healthCheck s w = Normal true)) /\
    ServiceSentinel.dispose false s h = (s, h) /\
    (let s' := fst (ServiceSentinel.dispose true s h) in
     let h' := snd (ServiceSentinel.dispose true s h) in
     (ServiceSentinel._isDisposed s = false ->
        Timers.is_active (ServiceSentinel.monitorTimer s') h' = false) /\
     ServiceSentinel._isDisposed s' = true /\
     ServiceSentinel.isHealthy s' = ServiceSentinel.isHealthy s /\
     ServiceSentinel.monitor s' w = s' /\
     forall (disposing : bool) (h2 : Timers.t),
       ServiceSentinel.dispose disposing s' h2 = (s', h2)).
Proof.
  intros s h w. split; [|split].
  - intros Hlive. unfold ServiceSentinel.monitor, ServiceSentinel.isHealthy.
    rewrite Hlive.
    destruct (ServiceSentinel._healthCheck s w) as [[]|e]; cbn;
      split; intros Heq; congruence.
  - unfold ServiceSentinel.dispose.
    destruct (ServiceSentinel._isDisposed s); reflexivity.
  - unfold ServiceSentinel.dispose, ServiceSentinel.monitor, ServiceSentinel.isHealthy.
    destruct (ServiceSentinel._isDisposed s) eqn:Hd; cbn [fst snd].
    + rewrite Hd. repeat split; try discriminate; exact Hd.
    + cbn. repeat split. intros _. apply cleared_is_inactive.
Qed.

Lemma sentinel_monitor_and_dispose_witness :
  ServiceSentinel.isHealthy
    (ServiceSentinel.monitor
       {| ServiceSentinel._healthCheck := fun _ => Throw (VOther "down");
          ServiceSentinel.monitorIntervalGetter := fun _ => 1000;
          ServiceSentinel._isDisposed := false;
          ServiceSentinel._isHealthy := true;
          ServiceSentinel.monitorTimer := 0%nat |}
       (Samples.at_ Samples.t0)) <> true.
Proof.
  destruct (sentinel_monitor_and_dispose
              {| ServiceSentinel._healthCheck := fun _ => Throw (VOther "down");
                 ServiceSentinel.monitorIntervalGetter := fun _ => 1000;
                 ServiceSentinel._isDisposed := false;
                 ServiceSentinel._isHealthy := true;
                 ServiceSentinel.monitorTimer := 0%nat |}
              Timers.empty (Samples.at_ Samples.t0)) as (Hmon & _).
  intros Hhealthy. apply (Hmon eq_refl) in Hhealthy. discriminate.
Defined.

Import TogglableServiceSentinel.




Lemma step_keeps_disposed (st : t * Timers.t) (ev : event) :
  ServiceSentinel._isDisposed (sentinel (fst st)) = true ->
  ServiceSentinel._isDisposed (sentinel (fst (step st ev))) = true /\
  isHealthy (fst (step st ev)) = isHealthy (fst st).
Proof.
  destruct st as [[[check getter disposed healthy timer] running] h].
  cbn [fst sentinel ServiceSentinel._isDisposed]. intros ->.
  destruct ev as [| |disposing|id w]; cbn.
  - destruct running; cbn; auto.
  - destruct running; cbn; auto.
  - auto.
  - destruct (Timers.is_active id h); cbn; auto.
Qed.

(** X20. Once a togglable sentinel is disposed of, nothing brings its
    monitoring back: whatever calls of [start], [stop] and [dispose] and
    firings of timers follow, it stays disposed of and its health status
    never changes again. *)
Theorem disposed_sentinel_never_monitors_again :
  forall (events : list event) (s : t) (h : Timers.t),
    ServiceSentinel._isDisposed (sentinel s) = true ->
    ServiceSentinel._isDisposed (sentinel (fst (run events (s, h)))) = true /\
    isHealthy (fst (run events (s, h))) = isHealthy s.
Proof.
  intros events s h Hd.
  change s with (fst (s, h)) in Hd at 1.
  change (isHealthy s) with (isHealthy (fst (s, h))).
  revert Hd. generalize (s, h) as st. unfold run.
  induction events as [|ev events IH]; intros st Hd; [auto|].
  cbn [fold_left].
  destruct (step_keeps_disposed st ev Hd) as [Hd' Hh].
  destruct (IH (step st ev) Hd') as [Hd'' Hh'].
  split; [exact Hd''|]. rewrite Hh'. exact Hh.
Qed.

Lemma disposed_sentinel_never_monitors_again_witness :
  let s :=
    {| sentinel :=
         {| ServiceSentinel._healthCheck := fun _ => Normal false;
            ServiceSentinel.monitorIntervalGetter := fun _ => 1000;
            ServiceSentinel._isDisposed := true;
            ServiceSentinel._isHealthy := true;
            ServiceSentinel.monitorTimer := 0%nat |};
       _isRunning := true |} in
  let st := run [Stop; Start; Fire 0%nat (Samples.at_ Samples.t0)] (s, Timers.empty) in
  isHealthy (fst st) = true /\ Timers.active (snd st) = [(0%nat, 1000)].
Proof.
  intros s st.
  destruct (disposed_sentinel_never_monitors_again
              [Stop; Start; Fire 0%nat (Samples.at_ Samples.t0)] s Timers.empty eq_refl)
    as (_ & Hh).
  split; [exact Hh | reflexivity].
Defined.

End SentinelFacts.

Module ExtraWitnesses.
Import ExecutionCircuitBreakerBase.

Lemma closed_breaker_runs_every_action_witness :
  snd (execute Samples.succeed Samples.breaker (Samples.at_ Samples.t0)) =
    {| clock := Samples.t0 + 10; effects := ["ok"] |} /\
  fst (fst (execute Samples.succeed Samples.breaker (Samples.at_ Samples.t0)))
    = Normal tt /\
  fst (fst (executeAsync Samples.succeed Samples.breaker (Samples.at_ Samples.t0)))
    = Normal tt /\
  fst (fst (executeAsync Samples.fail Samples.breaker (Samples.at_ Samples.t0)))
    <> Normal tt.
Proof.
  destruct (ExecutionExtras.closed_breaker_runs_every_action
              (H := ExecutionCircuitBreaker.strategy)
              Samples.breaker (Samples.at_ Samples.t0) Samples.succeed eq_refl)
    as (_ & Hworld & _ & Hsync & Hasync).
  destruct (ExecutionExtras.closed_breaker_runs_every_action
              (H := ExecutionCircuitBreaker.strategy)
              Samples.breaker (Samples.at_ Samples.t0) Samples.fail eq_refl)
    as (_ & _ & _ & _ & Hfailed).
  split; [exact Hworld|].
  split; [apply Hsync; reflexivity|].
  split; [apply Hasync; reflexivity|].
  intros Hdone. apply Hfailed in Hdone. discriminate Hdone.
Defined.

Lemma gate_follows_retry_time_after_a_call_witness :
  let tripped :=
    snd (fst (execute Samples.fail Samples.breaker (Samples.at_ Samples.t0))) in
  _attemptToProceed (Samples.t0 + 5010) tripped = Normal tt.
Proof.
  intros tripped.
  destruct (ExecutionExtras.gate_follows_retry_time_after_a_call
              (H := ExecutionCircuitBreaker.strategy)
              Samples.breaker (Samples.at_ Samples.t0) Samples.fail eq_refl)
    as (_ & Hgate).
  apply (Hgate (Samples.t0 + 5010) "db" eq_refl eq_refl).
  vm_compute. discriminate.
Defined.

Lemma tripped_without_flag_rejects_forever_witness :
  let tripped := snd (trip Samples.t0 Samples.breaker) in
  exists e,
    execute Samples.succeed tripped (Samples.at_ (Samples.t0 + 86400000)) =
      (Throw e, tripped, Samples.at_ (Samples.t0 + 86400000)).
Proof.
  intros tripped.
  destruct (ExecutionExtras.tripped_without_flag_rejects_forever
              (H := ExecutionCircuitBreaker.strategy)
              tripped (Samples.at_ (Samples.t0 + 86400000)) Samples.succeed
              eq_refl eq_refl) as (Hrej & _).
  exact Hrej.
Defined.

Lemma rejected_until_retry_time_witness :
  let tripped :=
    snd (fst (execute Samples.fail Samples.breaker (Samples.at_ Samples.t0))) in
  let huge := Samples.breaker_with (fun _ => Normal 1e16%float) in
  let stuck := snd (fst (execute Samples.fail huge (Samples.at_ Samples.t0))) in
  let backwards := Samples.breaker_with (fun _ => Normal (-1e16)%float) in
  let shut := snd (fst (execute Samples.fail backwards (Samples.at_ Samples.t0))) in
  _attemptToProceed (Samples.t0 + 5009) tripped <> Normal tt /\
  _attemptToProceed (Samples.t0 + 5010) tripped = Normal tt /\
  _nextRetry stuck = None /\
  _attemptToProceed (Samples.t0 + 10 + 10000000000000000) stuck <> Normal tt /\
  _attemptToProceed (Samples.t0 + 20) shut <> Normal tt.
Proof.
  intros tripped huge stuck backwards shut.
  destruct (ExecutionExtras.rejected_until_retry_time
              (H := ExecutionCircuitBreaker.strategy)
              backwards backwards (Samples.at_ Samples.t0)
              {| clock := Samples.t0 + 10; effects := ["failed"] |}
              Samples.fail (VOther "TestError") (self backwards) (-1e16)%float "db"
              eq_refl eq_refl eq_refl eq_refl eq_refl)
    as (_ & _ & _ & Hshut).
  destruct (ExecutionExtras.rejected_until_retry_time
              (H := ExecutionCircuitBreaker.strategy)
              Samples.breaker Samples.breaker (Samples.at_ Samples.t0)
              {| clock := Samples.t0 + 10; effects := ["failed"] |}
              Samples.fail (VOther "TestError") (self Samples.breaker) 5000%float "db"
              eq_refl eq_refl eq_refl eq_refl eq_refl)
    as (_ & _ & Hvalid & _).
  destruct (ExecutionExtras.rejected_until_retry_time
              (H := ExecutionCircuitBreaker.strategy)
              huge huge (Samples.at_ Samples.t0)
              {| clock := Samples.t0 + 10; effects := ["failed"] |}
              Samples.fail (VOther "TestError") (self huge) 1e16%float "db"
              eq_refl eq_refl eq_refl eq_refl eq_refl)
    as (Hnext & _ & _ & Hinvalid).
  assert (Hdate : Date_after (Samples.t0 + 10) 5000 = Some (Samples.t0 + 5010))
    by (vm_compute; reflexivity).
  split; [|split; [|split; [|split]]].
  - intros Hpass. destruct (Hvalid _ Hdate) as [_ Hopen]. apply Hopen in Hpass.
    vm_compute in Hpass. apply Hpass. reflexivity.
  - destruct (Hvalid _ Hdate) as [_ Hopen]. apply Hopen. vm_compute. discriminate.
  - exact Hnext.
  - apply Hinvalid. vm_compute. reflexivity.
  - apply Hshut. vm_compute. reflexivity.
Defined.

Lemma failed_probe_rearms_witness :
  let tripped :=
    snd (fst (execute Samples.fail Samples.breaker (Samples.at_ Samples.t0))) in
  let again :=
    snd (fst (execute Samples.fail tripped (Samples.at_ (Samples.t0 + 6000)))) in
  CircuitBreakerBase.trippedAt (base again) = Some (Samples.t0 + 10) /\
  _nextRetry again = Some (Samples.t0 + 6010 + 5000) /\
  fst (fst (execute Samples.fail tripped (Samples.at_ (Samples.t0 + 6000))))
    = Throw (VOther "TestError").
Proof.
  intros tripped again.
  destruct (ExecutionExtras.failed_probe_rearms
              (H := ExecutionCircuitBreaker.strategy)
              tripped tripped (Samples.at_ (Samples.t0 + 6000))
              {| clock := Samples.t0 + 6010; effects := ["failed"] |}
              Samples.fail (VOther "TestError") (self tripped)
              eq_refl eq_refl eq_refl eq_refl) as (Hreturned & _).
  destruct (Hreturned 5000%float eq_refl) as (Hbase & Hnext & Hthrown & _).
  split; [|split; [|exact Hthrown]].
  - change (base again) with
      (base (snd (fst (execute Samples.fail tripped (Samples.at_ (Samples.t0 + 6000)))))).
    rewrite Hbase. reflexivity.
  - change (_nextRetry again) with
      (_nextRetry
         (snd (fst (execute Samples.fail tripped (Samples.at_ (Samples.t0 + 6000)))))).
    rewrite Hnext. vm_compute. reflexivity.
Defined.

Lemma nullish_throw_is_replaced_witness :
  fst (fst (execute (fun cb w => (Throw VNull, cb, w))
              (create Samples.windowed) (Samples.at_ Samples.t0)))
    = Throw (VError "error cannot be null or undefined.").
Proof.
  rewrite (ExecutionExtras.nullish_throw_is_replaced
             (create Samples.windowed) (create Samples.windowed)
             (Samples.at_ Samples.t0) (Samples.at_ Samples.t0)
             (fun cb w => (Throw VNull, cb, w)) VNull eq_refl eq_refl eq_refl).
  reflexivity.
Defined.

Lemma simple_breaker_trips_when_detected_witness :
  let broken := Samples.breaker_with (fun _ => Throw (VError "no interval")) in
  isTripped (snd (fst (execute Samples.fail Samples.breaker (Samples.at_ Samples.t0))))
    = true /\
  fst (fst (execute Samples.fail Samples.breaker (Samples.at_ Samples.t0)))
    = Throw (VOther "TestError") /\
  execute Samples.fail broken (Samples.at_ Samples.t0) =
    (Throw (VError "no interval"), set_shouldRetry broken,
     {| clock := Samples.t0 + 10; effects := ["failed"] |}).
Proof.
  intros broken.
  destruct (ExecutionExtras.simple_breaker_trips_when_detected
              Samples.breaker Samples.breaker (Samples.at_ Samples.t0)
              {| clock := Samples.t0 + 10; effects := ["failed"] |}
              Samples.fail (VOther "TestError") eq_refl eq_refl)
    as (_ & Htrip & _).
  destruct (ExecutionExtras.simple_breaker_trips_when_detected
              broken broken (Samples.at_ Samples.t0)
              {| clock := Samples.t0 + 10; effects := ["failed"] |}
              Samples.fail (VOther "TestError") eq_refl eq_refl)
    as (_ & _ & Hthrown & _).
  destruct (Htrip 5000%float eq_refl eq_refl) as (Hsame & Htripped & _).
  split; [exact Htripped|]. split; [exact Hsame|].
  apply (Hthrown (VError "no interval")); reflexivity.
Defined.

Lemma burst_trips_past_threshold_witness :
  fst (Runs.shouldTripAll
         [(VOther "a", Samples.t0); (VOther "b", Samples.t0 + 5);
          (VOther "c", Samples.t0 + 60000)]
         Samples.windowed)
    = [Normal false; Normal true; Normal true].
Proof.
  destruct (ThresholdRunFacts.burst_trips_past_threshold
              Samples.windowed (VOther "a") Samples.t0
              [(VOther "b", Samples.t0 + 5); (VOther "c", Samples.t0 + 60000)])
    as (Hanswers & _).
  - repeat constructor.
  - reflexivity.
  - repeat constructor; vm_compute; discriminate.
  - rewrite Hanswers. reflexivity.
Defined.

Lemma spaced_out_failures_never_add_up_witness :
  fst (Runs.shouldTripAll
         [(VOther "a", Samples.t0); (VOther "b", Samples.t0 + 60001);
          (VOther "c", Samples.t0 + 120002)]
         Samples.windowed)
    = [Normal false; Normal false; Normal false].
Proof.
  destruct (ThresholdRunFacts.spaced_out_failures_never_add_up
              [(VOther "a", Samples.t0); (VOther "b", Samples.t0 + 60001);
               (VOther "c", Samples.t0 + 120002)]
              Samples.windowed)
    as (Hanswers & _).
  - repeat constructor.
  - repeat split; reflexivity.
  - rewrite Hanswers. reflexivity.
Defined.

Import DefaultCircuitBreakerPolicy.

Lemma sample_policy_reachable (n : Z) : 0 <= n -> Runs.reachable (Samples.policy n).
Proof.
  intros Hn.
  apply (Runs.reach_create unit (Some "db") (Some (Samples.policy_config n))
           (Some Samples.authority)).
  apply PolicyFacts.sample_policy_constructed. exact Hn.
Qed.

Lemma counted_since_last_success_witness :
  let ok := fst (notifyRequestFinished tt VUndefined (Samples.policy 2)
                   (Samples.at_ Samples.t0)) in
  let ko := (Samples.t0, tt, VOther "TestError") in
  CircuitBreaker.isTripped (_circuitBreaker (fst (notifyAll [ko; ko] ok (Samples.at_ 0))))
    = false /\
  CircuitBreaker.isTripped (_circuitBreaker (fst (notifyAll [ko; ko; ko] ok (Samples.at_ 0))))
    = true.
Proof.
  intros ok ko. unfold ok. split.
  - rewrite (PolicyFacts.counted_since_last_success unit tt VUndefined [ko; ko]
               (Samples.policy 2) (Samples.at_ Samples.t0) (Samples.at_ 0));
      [reflexivity | reflexivity | repeat constructor | discriminate].
  - rewrite (PolicyFacts.counted_since_last_success unit tt VUndefined [ko; ko; ko]
               (Samples.policy 2) (Samples.at_ Samples.t0) (Samples.at_ 0));
      [reflexivity | reflexivity | repeat constructor | discriminate].
Defined.

Lemma notifyAll_reachable (calls : list (Z * unit * value)) :
  forall (p : t unit) (w : World),
    Runs.reachable p -> Runs.reachable (fst (notifyAll calls p w)).
Proof.
  induction calls as [|[[now ctx] error] rest IH]; intros p w Hreach; [exact Hreach|].
  cbn [notifyAll].
  pose proof (Runs.reach_notify unit ctx error p
                {| clock := now; effects := effects w |} Hreach) as Hstep.
  destruct (notifyRequestFinished ctx error p {| clock := now; effects := effects w |})
    as [p1 w1].
  apply IH. exact Hstep.
Qed.

Lemma open_exactly_when_over_allowance_witness :
  let p := fst (notifyAll
                  [(Samples.t0, tt, VUndefined); (Samples.t0, tt, VOther "a");
                   (Samples.t0, tt, VOther "b")]
                  (Samples.policy 1) (Samples.at_ 0)) in
  CircuitBreaker.isTripped (_circuitBreaker p) = true.
Proof.
  intros p.
  assert (Hreach : Runs.reachable p).
  { apply notifyAll_reachable. apply sample_policy_reachable. discriminate. }
  destruct (PolicyExtras.open_exactly_when_over_allowance unit p Hreach)
    as ((_ & Hopen) & _).
  apply Hopen. right. exists 2. split; reflexivity.
Defined.

Lemma policy_gate_follows_retry_time_witness :
  let opened :=
    fst (notifyRequestFinished tt (VOther "a") (Samples.policy 0)
           (Samples.at_ Samples.t0)) in
  CircuitBreaker.isTripped (_circuitBreaker opened) = true /\
  _nextRetry opened = Samples.t0 + 250 /\
  (* before the retry time the call is stopped *)
  fst (throwIfTripped tt opened (Samples.at_ (Samples.t0 + 249))) <> Normal tt /\
  (* from the retry time on every call passes, not just one *)
  throwIfTripped tt opened (Samples.at_ (Samples.t0 + 250)) =
    (Normal tt, Samples.at_ (Samples.t0 + 250)) /\
  throwIfTripped tt opened (Samples.at_ (Samples.t0 + 9000)) =
    (Normal tt, Samples.at_ (Samples.t0 + 9000)).
Proof.
  intros opened.
  assert (Hreach : Runs.reachable opened).
  { apply Runs.reach_notify. apply sample_policy_reachable. discriminate. }
  destruct (PolicyExtras.policy_gate_follows_retry_time unit opened tt
              (Samples.at_ (Samples.t0 + 249)) Hreach) as (_ & (Hearly & _) & _).
  destruct (PolicyExtras.policy_gate_follows_retry_time unit opened tt
              (Samples.at_ (Samples.t0 + 250)) Hreach) as (_ & (_ & Hdue) & Hsame).
  destruct (PolicyExtras.policy_gate_follows_retry_time unit opened tt
              (Samples.at_ (Samples.t0 + 9000)) Hreach) as (_ & (_ & Hlate) & Hsame').
  assert (Hdue' : fst (throwIfTripped tt opened (Samples.at_ (Samples.t0 + 250)))
                    = Normal tt).
  { apply Hdue. right. vm_compute. discriminate. }
  assert (Hlate' : fst (throwIfTripped tt opened (Samples.at_ (Samples.t0 + 9000)))
                     = Normal tt).
  { apply Hlate. right. vm_compute. discriminate. }
  split; [reflexivity|]. split; [reflexivity|].
  split; [|split].
  - intros Hpass. destruct (Hearly Hpass) as [Hclosed|Hle]; [discriminate Hclosed|].
    vm_compute in Hle. apply Hle. reflexivity.
  - rewrite (surjective_pairing (throwIfTripped tt opened (Samples.at_ (Samples.t0 + 250)))).
    rewrite Hdue', (Hsame Hdue'). reflexivity.
  - rewrite (surjective_pairing (throwIfTripped tt opened (Samples.at_ (Samples.t0 + 9000)))).
    rewrite Hlate', (Hsame' Hlate'). reflexivity.
Defined.

Lemma failure_while_open_postpones_retry_witness :
  let opened :=
    fst (notifyRequestFinished tt (VOther "a") (Samples.policy 0)
           (Samples.at_ Samples.t0)) in
  let again :=
    fst (notifyRequestFinished tt (VOther "b") opened (Samples.at_ (Samples.t0 + 400))) in
  _nextRetry again = Samples.t0 + 400 + 250 /\
  _circuitBreaker again = _circuitBreaker opened.
Proof.
  intros opened again.
  destruct (PolicyExtras.failure_while_open_postpones_retry unit opened tt (VOther "b")
              (Samples.at_ (Samples.t0 + 400)) eq_refl eq_refl)
    as (Hnext & _ & Hkeep).
  split; [exact Hnext | apply Hkeep; reflexivity].
Defined.

Lemma setter_guards_constructor_witness :
  exists c' p,
    DefaultCircuitBreakerPolicyConfig.set_failuresAllowedBeforeTrip 5
      DefaultCircuitBreakerPolicyConfig.create = Normal c' /\
    create (Some "db") (Some c') (Some Samples.authority) = Normal p.
Proof.
  destruct (PolicyExtras.setter_guards_constructor unit 5
              DefaultCircuitBreakerPolicyConfig.create "db" Samples.authority)
    as (_ & Hok).
  - discriminate.
  - destruct Hok as (c' & p & Hset & _ & _ & Hnew & _); [lia|].
    exists c', p. split; [exact Hset | exact Hnew].
Defined.

End ExtraWitnesses.

Module ConstructorFacts.
Import ExecutionCircuitBreakerBase.

Lemma created_is_closed {S : Type} `{Strategy S} (s : S) (action : Action) (w : World) :
  snd (execute action (create s) w) = snd (action (create s) w).
Proof.
  apply ExecutionFacts.execute_passed.
  apply ExecutionFacts.gate_open_when_untripped. reflexivity.
Qed.

(** X22. The constructors of the two execution breakers accept exactly a
    name that is present and not empty together with every function they
    ask for; the breaker they return is closed, with no window started,
    and its first call runs the action. *)
Theorem execution_breakers_start_closed :
  forall (name : option string)
         (failureDetector : option ExecutionCircuitBreaker.FailureDetector)
         (retryIntervalCalculator : option ExecutionCircuitBreaker.RetryIntervalCalculator)
         (errorCountGetter : option ThresholdExecutionCircuitBreaker.ErrorCountGetter)
         (errorIntervalGetter : option ThresholdExecutionCircuitBreaker.ErrorIntervalGetter),
    let named := exists n, name = Some n /\ n <> "" in
    ((exists cb,
        ExecutionCircuitBreaker.create name failureDetector retryIntervalCalculator
          = Normal cb) <->
     named /\ failureDetector <> None /\ retryIntervalCalculator <> None) /\
    ((exists cb,
        ThresholdExecutionCircuitBreaker.create name failureDetector
          retryIntervalCalculator errorCountGetter errorIntervalGetter = Normal cb) <->
     named /\ failureDetector <> None /\ retryIntervalCalculator <> None /\
     errorCountGetter <> None /\ errorIntervalGetter <> None) /\
    (forall cb (action : Action) (w : World),
       ExecutionCircuitBreaker.create name failureDetector retryIntervalCalculator
         = Normal cb ->
       isTripped cb = false /\ _nextRetry cb = Some year_one /\
       snd (execute action cb w) = snd (action cb w)) /\
    (forall cb (action : Action) (w : World),
       ThresholdExecutionCircuitBreaker.create name failureDetector
         retryIntervalCalculator errorCountGetter errorIntervalGetter = Normal cb ->
       isTripped cb = false /\ _nextRetry cb = Some year_one /\
       ThresholdExecutionCircuitBreaker._errorCount (self cb) = None /\
       ThresholdExecutionCircuitBreaker._errorCountIntervalEnd (self cb) = year_one /\
       snd (execute action cb w) = snd (action cb w)).
Proof.
  intros name fd ric ecg eig named.
  unfold ExecutionCircuitBreaker.create, ThresholdExecutionCircuitBreaker.create, named.
  destruct name as [[|ch rest]|], fd as [f|], ric as [r|], ecg as [c|], eig as [i|];
    (split; [|split; [|split]]);
    try (split;
         [ intros [cb Hcb];
           first [ discriminate Hcb
                 | repeat split; try discriminate;
                   eexists; split; [reflexivity | discriminate] ]
         | intros Hargs; decompose [and ex] Hargs; first [congruence | eauto] ]);
    try (intros cb action w Hcb; try discriminate; inversion Hcb; subst cb;
         repeat split; apply created_is_closed).
Qed.

Lemma execution_breakers_start_closed_witness :
  exists cb,
    ThresholdExecutionCircuitBreaker.create (Some "db") (Some (fun _ => Normal true))
      (Some (fun _ => Normal 5000%float)) (Some (fun _ => 1)) (Some (fun _ => 60000))
      = Normal cb.
Proof.
  destruct (execution_breakers_start_closed (Some "db") (Some (fun _ => Normal true))
              (Some (fun _ => Normal 5000%float)) (Some (fun _ => 1))
              (Some (fun _ => 60000)))
    as (_ & (_ & Hbuild) & _).
  apply Hbuild. repeat split; try discriminate.
  exists "db". split; [reflexivity | discriminate].
Defined.

Import DefaultCircuitBreakerPolicy.

(** X23. The constructor of the policy checks the trip reason authority
    first, then the identifier, then the configuration and last its
    allowance, and reports the first that is wrong; when all are right the
    new policy lets [throwIfTripped] pass at any time. *)
Theorem policy_constructor_checks_in_order :
  forall (Context_ : Type) (identifier : option string) (cfg : option Config.t)
         (authority : option (TripReasonAuthority Context_)),
    let identified := exists i, identifier = Some i /\ i <> "" in
    (authority = None ->
       create identifier cfg authority =
         Throw (VError "The trip reason authority cannot be null or undefined.")) /\
    (authority <> None -> ~ identified ->
       create identifier cfg authority =
         Throw (VError "The circuit breaker identifier cannot be null or undefined.")) /\
    (authority <> None -> identified -> cfg = None ->
       create identifier cfg authority =
         Throw (VError "The circuit breaker policy configuration cannot be null or undefined.")) /\
    (forall c, authority <> None -> identified -> cfg = Some c ->
       Config.failuresAllowedBeforeTrip c < 0 ->
       create identifier cfg authority =
         Throw (VError "The number of failures allowed before trip cannot be less than zero.")) /\
    (forall c, authority <> None -> identified -> cfg = Some c ->
       0 <= Config.failuresAllowedBeforeTrip c ->
       exists p,
         create identifier cfg authority = Normal p /\
         forall ctx w, throwIfTripped ctx p w = (Normal tt, w)).
Proof.
  intros Context_ identifier cfg authority identified. unfold create, identified.
  destruct authority as [a|].
  2:{ repeat split; intros; congruence. }
  split; [discriminate|].
  destruct identifier as [[|ch rest]|].
  - split; [reflexivity|].
    repeat split; intros; decompose [and ex] H0; congruence.
  - split; [intros _ Hnot; exfalso; apply Hnot; eexists; split;
            [reflexivity | discriminate]|].
    split; [intros _ _ ->; reflexivity|].
    split; intros c _ _ -> Hallow.
    + apply Z.ltb_lt in Hallow. rewrite Hallow. reflexivity.
    + apply Z.ltb_ge in Hallow. rewrite Hallow. eexists. split; [reflexivity|].
      reflexivity.
  - split; [reflexivity|].
    repeat split; intros; decompose [and ex] H0; congruence.
Qed.

Lemma policy_constructor_checks_in_order_witness :
  create (Context_ := unit) None None None =
    Throw (VError "The trip reason authority cannot be null or undefined.") /\
  create (Some "db") (Some (Samples.policy_config (-1))) (Some Samples.authority) =
    Throw (VError "The number of failures allowed before trip cannot be less than zero.").
Proof.
  split.
  - destruct (policy_constructor_checks_in_order unit None None None) as (Hauth & _).
    apply Hauth. reflexivity.
  - destruct (policy_constructor_checks_in_order unit (Some "db")
                (Some (Samples.policy_config (-1))) (Some Samples.authority))
      as (_ & _ & _ & Hneg & _).
    apply (Hneg (Samples.policy_config (-1))); try reflexivity; try discriminate.
    exists "db". split; [reflexivity | discriminate].
Defined.

End ConstructorFacts.
